(** * AuthService: account authentication and session issuance

    A shallow embedding of the second [AuthService] class of
    [src/video/video.service.ts] (the variant with email verification,
    login auditing and password reset), together with theorems about it.
    The earlier [AuthService] and the [VideoService] of the same file are
    embedded after it, as far as their code can be.

    Conventions of the embedding.
    - An [async] method is a computation in the monad [M]: it reads an
      environment, threads the persistent world, and either returns a
      value or throws.  Effects performed before a [throw] stay in the
      world, as they do in the source.
    - Everything the process does not decide itself is an input of the
      run and lives in [Env]: the clock, the identifier the store
      generates for a new row, the configuration, the password-hashing
      capability and the outcome of the calls to the mail and contact-sync
      collaborators.  The clock does not advance within one call.
    - JSON Web Tokens are modelled symbolically: a token carries its claims
      and a tag that records the key and the claims it was computed from. *)

From Stdlib Require Import String ZArith List Bool Lia.
Import ListNotations.

Open Scope string_scope.
Open Scope Z_scope.

(** ** Enumerations *)

(** Modelled from the spec: the enum of [src/enums/role.enum] is not part of
    the sources; the spec lists the roles "User, Admin". *)
Module Role.
Inductive t := User | Admin.
End Role.

(** Modelled from the spec: the enum of [src/enums/status.enum] is not part
    of the sources; the service compares against the literals ['inactive'],
    ['unverified'] and ['active'] and writes [Status.Active]. *)
Module Status.
Inductive t := Unverified | Active | Inactive.

Definition eqb (a b : t) : bool :=
  match a, b with
  | Unverified, Unverified | Active, Active | Inactive, Inactive => true
  | _, _ => false
  end.
End Status.

(** ** JSON Web Tokens *)

(** The claims the service ever writes into, or reads from, a token:
    [{ sub, role }] for session tokens, [{ email }] for verification tokens,
    [{ id }] for reset tokens, and the registered [iat]/[exp] (in seconds). *)
Record Claims := {
  claim_sub : option string;
  claim_role : option Role.t;
  claim_email : option string;
  claim_id : option string;
  claim_iat : option Z;
  claim_exp : option Z
}.

(** The tag of a signed token: the key it was computed with and the claims
    it was computed over. *)
Record Mac := { mac_key : string; mac_msg : Claims }.

Inductive Token :=
| Raw (s : string)                        (* not a compact JWS at all *)
| Jws (payload : Claims) (signature : Mac).

Definition Token_eq_dec (a b : Token) : {a = b} + {a <> b}.
Proof. repeat decide equality. Defined.

Definition Token_eqb (a b : Token) : bool :=
  if Token_eq_dec a b then true else false.

(** [jwt.sign(payload, secret, { expiresIn })] at clock [now] (milliseconds):
    [iat] is the clock in whole seconds and [exp] is [iat + expiresIn]. *)
Definition jwt_sign (now : Z) (payload : Claims) (secret : string)
           (expiresIn : Z) : Token :=
  let iat := now / 1000 in
  let body := {| claim_sub := claim_sub payload;
                 claim_role := claim_role payload;
                 claim_email := claim_email payload;
                 claim_id := claim_id payload;
                 claim_iat := Some iat;
                 claim_exp := Some (iat + expiresIn) |} in
  Jws body {| mac_key := secret; mac_msg := body |}.

(** The tag of a token verifies under [secret]. *)
Definition signature_verifies (secret : string) (t : Token) : bool :=
  match t with
  | Raw _ => false
  | Jws payload sig =>
      Token_eqb (Jws payload sig)
                (Jws payload {| mac_key := secret; mac_msg := payload |})
  end.

(** The [exp] test of [jwt.verify]: expired once the clock, in whole
    seconds, has reached [exp]. *)
Definition jwt_expired (now : Z) (c : Claims) : bool :=
  match claim_exp c with
  | Some e => e <=? now / 1000
  | None => false
  end.

(** [jwt.decode(token)]: the payload, with no check of the tag or of the
    expiry; [null] for a missing or malformed token. *)
Definition jwt_decode (t : option Token) : option Claims :=
  match t with
  | Some (Jws payload _) => Some payload
  | _ => None
  end.

(** ** Entities *)

Record Profile := {
  business_name : string;
  website : string;
  state_region : string;
  country : string;
  utilization_purpose : string;
  interests : list string
}.

(** Modelled from the spec: the entity of [src/entities/users.entity] is not
    part of the sources.  The fields are the ones the service reads or
    writes; [None] stands for a property that is absent or [null].  [id] and
    [status] are filled in by the store when the row is inserted. *)
Record User := {
  id : option string;
  email : string;
  password : option string;
  role : Role.t;
  status : option Status.t;
  email_consent : bool;
  sms_consent : bool;
  email_verification_token : option Token;
  reset_pass_token : option Token;
  reset_pass_token_expiry : option Z;
  last_login : option Z;
  profile : option Profile
}.

(** Modelled from the spec: the column default of [status], declared in the
    missing entity, is [Unverified] ("Persist user in Unverified state"). *)
Definition User_default_status : Status.t := Status.Unverified.

Record LoginEvent := {
  userId : option string;
  timestamp : Z;
  ipAddress : option string;
  userAgent : option string;
  deviceInfo : option string;
  loginMethod : string;
  successful : bool;
  failureReason : option string
}.

(** ** Requests and payloads *)

Record ProfileDto := {
  businessName : string;
  dto_website : string;
  stateRegion : string;
  dto_country : string;
  utilizationPurpose : string;
  dto_interests : list string
}.

Record SignUpDto := {
  signup_email : string;
  signup_password : string;
  signup_profile : ProfileDto;
  emailTermsConsent : bool;
  smsConsent : bool
}.

Record CredLoginDto := { login_email : string; login_password : string }.

Record GoogleLoginDto := { google_email : string }.

(** The part of the HTTP request [recordLoginEvent] looks at. *)
Record Req := {
  ip : option string;
  header_user_agent : option string;
  header_sec_ch_ua : option string
}.

(** ** Results *)

Inductive Data :=
| DataEmpty                                               (* [{}] *)
| DataUser (user : User)                                  (* [{ user }] *)
| DataEmail (email : string)                              (* [{ email }] *)
| DataTokens (accessToken refreshToken : Token) (user : User).

(** Modelled from the spec: [successHandler] of [src/utils/response.handler]
    is not part of the sources; it pairs a message with the data. *)
Record Response := successHandler { message : string; data : Data }.

(** The exceptions the service throws.  [BadRequestException] is also
    constructed from a caught error ([new BadRequestException(err)]); [Error]
    is a fault raised by a collaborator. *)
Inductive Exception :=
| BadRequestException (message : string)
| BadRequestException_of (err : Exception)
| ForbiddenException (message : string)
| NotFoundException (message : string)
| Error (message : string).

(** The HTTP status of an exception. *)
Definition getStatus (e : Exception) : Z :=
  match e with
  | BadRequestException _ | BadRequestException_of _ => 400
  | ForbiddenException _ => 403
  | NotFoundException _ => 404
  | Error _ => 500
  end.

(** ** Environment and world *)

(** [hashPassword] is [PasswordStrategy.hashPassword] with its salt fixed
    for the run.  [bcrypt_compare] is what [compare] of the [bcryptjs]
    library, which this class imports, answers for a password and a stored
    hash that are both strings; [bcrypt_native_compare] is the same for
    [compare] of the native [bcrypt] library, which the earlier class
    imports.  What either library does with a hash that is [null] is not a
    boolean and is written out where the service calls it. *)

Record Env := {
  now : Z;                                  (* [Date.now()], milliseconds *)
  uuid : string;                            (* id given to an inserted row *)
  ACCESS_TOKEN_SECRET : string;
  ACCESS_TOKEN_EXPIRATION_TIME : Z;         (* seconds *)
  REFRESH_TOKEN_SECRET : string;
  REFRESH_TOKEN_EXPIRATION_TIME : Z;        (* seconds *)
  JWT_SECRET : string;
  hashPassword : string -> string;          (* [PasswordStrategy] *)
  bcrypt_compare : string -> string -> bool;
  bcrypt_native_compare : string -> string -> bool;
  sendVerificationEmail_fault : option string;
  sendPasswordResetEmail_fault : option string;
  createContact_fault : option string
}.

Inductive Mail :=
| VerificationEmail (to : string) (token : Token)
| PasswordResetEmail (to : string) (token : Token).

Record World := {
  users : list User;                        (* [userRepo] *)
  login_events : list LoginEvent;           (* [loginEventRepo] *)
  outbox : list Mail;                       (* mails handed to [EmailService] *)
  contacts : list SignUpDto                 (* contacts created in GoHighLevel *)
}.

(** ** The monad of service methods *)

Definition M (A : Type) : Type := Env -> World -> World * (Exception + A).

Definition ret {A} (a : A) : M A := fun _ w => (w, inr a).

Definition bind {A B} (m : M A) (k : A -> M B) : M B :=
  fun env w =>
    match m env w with
    | (w', inr a) => k a env w'
    | (w', inl e) => (w', inl e)
    end.

Definition throw {A} (e : Exception) : M A := fun _ w => (w, inl e).

(** [try { m } catch (err) { h err }] *)
Definition try_catch {A} (m : M A) (h : Exception -> M A) : M A :=
  fun env w =>
    match m env w with
    | (w', inr a) => (w', inr a)
    | (w', inl e) => h e env w'
    end.

Definition ask : M Env := fun env w => (w, inr env).
Definition get : M World := fun _ w => (w, inr w).
Definition put (w : World) : M unit := fun _ _ => (w, inr tt).

Notation "x <- m ;; k" := (bind m (fun x => k))
  (at level 61, m at next level, right associativity).
Notation "m ;;; k" := (bind m (fun _ => k))
  (at level 61, right associativity).

(** ** Repositories and collaborators *)

(** Equality of a key and a column that are both present: the test behind
    a lookup whose key the caller always has, and behind the identity of
    an entity and a row (an entity without an id is no row's). *)
Definition where_string (key column : option string) : bool :=
  match key, column with
  | Some k, Some c => String.eqb k c
  | _, _ => false
  end.

(** One property [{ column: key }] of a TypeORM where-clause whose key may
    be [undefined]: TypeORM leaves a property that is [undefined] out of
    the condition, so it then holds of every row; a key that is present
    selects the rows whose column equals it. *)
Definition where_property (key column : option string) : bool :=
  match key with
  | None => true
  | Some _ => where_string key column
  end.

Definition where_token (key : Token) (column : option Token) : bool :=
  match column with
  | Some c => Token_eqb key c
  | None => false
  end.

(** Modelled from the spec: [UsersService.findUserByEmail] of
    [src/users/users.service] is not part of the sources; it returns the
    array of the users with that email ("zero-or-one User"), of which the
    service takes the first element; for an email that is absent it finds
    nobody. *)
Definition findUserByEmail (key : option string) : M (list User) :=
  w <- get ;;
  ret (filter (fun u => where_string key (Some (email u))) (users w)).

(** [userRepo.findOneBy({ id })]: the first row the condition holds of; for
    an id that is [undefined], the first row of the table. *)
Definition userRepo_findOneBy_id (key : option string) : M (option User) :=
  w <- get ;;
  ret (find (fun u => where_property key (id u)) (users w)).

(** [userRepo.findOne({ where: { email } })] *)
Definition userRepo_findOne_email (key : string) : M (option User) :=
  w <- get ;;
  ret (find (fun u => where_string (Some key) (Some (email u))) (users w)).

(** [userRepo.findOne({ where: { reset_pass_token, id } })]: the token is
    always present; the id is the [id] claim of the decoded token and may
    be [undefined], in which case the stored token alone selects. *)
Definition reset_where (token : Token) (key : option string) (u : User) : bool :=
  where_token token (reset_pass_token u) && where_property key (id u).

Definition userRepo_findOne_reset (token : Token) (key : option string)
  : M (option User) :=
  w <- get ;;
  ret (find (reset_where token key) (users w)).

Definition set_users (us : list User) (w : World) : World :=
  {| users := us; login_events := login_events w;
     outbox := outbox w; contacts := contacts w |}.

Definition same_id (key : option string) (u : User) : bool :=
  where_string key (id u).

(** The [UPDATE ... WHERE id = key] both [save] and [update] end in. *)
Definition update_rows (key : option string) (f : User -> User)
           (us : list User) : list User :=
  map (fun r => if same_id key r then f r else r) us.

Definition with_generated (i : string) (u : User) : User :=
  {| id := Some i; email := email u; password := password u; role := role u;
     status := match status u with
               | Some s => Some s
               | None => Some User_default_status
               end;
     email_consent := email_consent u; sms_consent := sms_consent u;
     email_verification_token := email_verification_token u;
     reset_pass_token := reset_pass_token u;
     reset_pass_token_expiry := reset_pass_token_expiry u;
     last_login := last_login u; profile := profile u |}.

(** [userRepo.save(entity)]: an entity without a row is inserted, the store
    filling in the generated [id] and the column defaults; an entity with a
    row overwrites it.  The entity handed in is updated in place and
    returned, so the caller's variable and the result are the same object.
    Faults of the store itself are outside the model: [save] always
    succeeds. *)
Definition userRepo_save (u : User) : M User :=
  env <- ask ;;
  w <- get ;;
  if existsb (same_id (id u)) (users w)
  then put (set_users (update_rows (id u) (fun _ => u) (users w)) w) ;;;
       ret u
  else let u' := with_generated (match id u with
                                 | Some i => i
                                 | None => uuid env
                                 end) u in
       put (set_users (users w ++ [u']) w) ;;;
       ret u'.

(** [userRepo.update(id, partial)] *)
Definition userRepo_update (key : option string) (f : User -> User) : M unit :=
  w <- get ;;
  put (set_users (update_rows key f (users w)) w).

Definition add_login_event (ev : LoginEvent) (w : World) : World :=
  {| users := users w; login_events := login_events w ++ [ev];
     outbox := outbox w; contacts := contacts w |}.

(** [loginEventRepo.save(event)]: the ledger only ever grows at its end. *)
Definition loginEventRepo_save (ev : LoginEvent) : M unit :=
  w <- get ;;
  put (add_login_event ev w).

Definition deliver (m : Mail) : M unit :=
  w <- get ;;
  put {| users := users w; login_events := login_events w;
         outbox := outbox w ++ [m]; contacts := contacts w |}.

(** [emailService.sendVerificationEmail(email, token)] *)
Definition sendVerificationEmail (to : string) (token : Token) : M unit :=
  env <- ask ;;
  match sendVerificationEmail_fault env with
  | Some msg => throw (Error msg)
  | None => deliver (VerificationEmail to token)
  end.

(** [emailService.sendPasswordResetEmail(email, token)] *)
Definition sendPasswordResetEmail (to : string) (token : Token) : M unit :=
  env <- ask ;;
  match sendPasswordResetEmail_fault env with
  | Some msg => throw (Error msg)
  | None => deliver (PasswordResetEmail to token)
  end.

(** [goHighLevelService.createContact(dto)] *)
Definition createContact (dto : SignUpDto) : M unit :=
  env <- ask ;;
  match createContact_fault env with
  | Some msg => throw (Error msg)
  | None =>
      w <- get ;;
      put {| users := users w; login_events := login_events w;
             outbox := outbox w; contacts := contacts w ++ [dto] |}
  end.

(** [jwt.verify(token, secret)]: throws on a malformed token, on a tag that
    does not verify and on an expired token, in that order. *)
Definition jwt_verify (token : Token) (secret : string) : M Claims :=
  env <- ask ;;
  match token with
  | Raw _ => throw (Error "jwt malformed")
  | Jws payload _ =>
      if negb (signature_verifies secret token)
      then throw (Error "invalid signature")
      else if jwt_expired (now env) payload
           then throw (Error "jwt expired")
           else ret payload
  end.

(** ** Field updates and [delete user.password] *)

Definition delete_password (u : User) : User :=
  {| id := id u; email := email u; password := None; role := role u;
     status := status u;
     email_consent := email_consent u; sms_consent := sms_consent u;
     email_verification_token := email_verification_token u;
     reset_pass_token := reset_pass_token u;
     reset_pass_token_expiry := reset_pass_token_expiry u;
     last_login := last_login u; profile := profile u |}.

Definition set_status (s : Status.t) (u : User) : User :=
  {| id := id u; email := email u; password := password u; role := role u;
     status := Some s;
     email_consent := email_consent u; sms_consent := sms_consent u;
     email_verification_token := email_verification_token u;
     reset_pass_token := reset_pass_token u;
     reset_pass_token_expiry := reset_pass_token_expiry u;
     last_login := last_login u; profile := profile u |}.

Definition set_email_verification_token (t : Token) (u : User) : User :=
  {| id := id u; email := email u; password := password u; role := role u;
     status := status u;
     email_consent := email_consent u; sms_consent := sms_consent u;
     email_verification_token := Some t;
     reset_pass_token := reset_pass_token u;
     reset_pass_token_expiry := reset_pass_token_expiry u;
     last_login := last_login u; profile := profile u |}.

Definition set_last_login (t : Z) (u : User) : User :=
  {| id := id u; email := email u; password := password u; role := role u;
     status := status u;
     email_consent := email_consent u; sms_consent := sms_consent u;
     email_verification_token := email_verification_token u;
     reset_pass_token := reset_pass_token u;
     reset_pass_token_expiry := reset_pass_token_expiry u;
     last_login := Some t; profile := profile u |}.

Definition set_reset (t : option Token) (expiry : option Z) (u : User) : User :=
  {| id := id u; email := email u; password := password u; role := role u;
     status := status u;
     email_consent := email_consent u; sms_consent := sms_consent u;
     email_verification_token := email_verification_token u;
     reset_pass_token := t;
     reset_pass_token_expiry := expiry;
     last_login := last_login u; profile := profile u |}.

Definition set_password (p : string) (u : User) : User :=
  {| id := id u; email := email u; password := Some p; role := role u;
     status := status u;
     email_consent := email_consent u; sms_consent := sms_consent u;
     email_verification_token := email_verification_token u;
     reset_pass_token := reset_pass_token u;
     reset_pass_token_expiry := reset_pass_token_expiry u;
     last_login := last_login u; profile := profile u |}.

(** ** AuthService *)

Record Tokens := { accessToken : Token; refreshToken : Token }.

(** [getTokens(userId, role)]: both tokens carry [{ sub, role }], each signed
    with its own secret and expiry window. *)
Definition getTokens (userId : option string) (r : Role.t) : M Tokens :=
  env <- ask ;;
  let payload := {| claim_sub := userId; claim_role := Some r;
                    claim_email := None; claim_id := None;
                    claim_iat := None; claim_exp := None |} in
  ret {| accessToken := jwt_sign (now env) payload (ACCESS_TOKEN_SECRET env)
                                 (ACCESS_TOKEN_EXPIRATION_TIME env);
         refreshToken := jwt_sign (now env) payload (REFRESH_TOKEN_SECRET env)
                                  (REFRESH_TOKEN_EXPIRATION_TIME env) |}.

(** [generateEmailToken(email)]: [{ email }], valid for one day. *)
Definition generateEmailToken (e : string) : M Token :=
  env <- ask ;;
  ret (jwt_sign (now env)
         {| claim_sub := None; claim_role := None; claim_email := Some e;
            claim_id := None; claim_iat := None; claim_exp := None |}
         (JWT_SECRET env) 86400).

(** [verifyEmailToken(token)] *)
Definition verifyEmailToken (token : Token) : M Claims :=
  env <- ask ;;
  jwt_verify token (JWT_SECRET env).

Definition profileRepo_create (p : ProfileDto) : Profile :=
  {| business_name := businessName p;
     website := dto_website p;
     state_region := stateRegion p;
     country := dto_country p;
     utilization_purpose := utilizationPurpose p;
     interests := dto_interests p |}.

(** [signUp(signupUserDto, userRole)] *)
Definition signUp (signupUserDto : SignUpDto) (userRole : Role.t)
  : M Response :=
  env <- ask ;;
  user <- findUserByEmail (Some (signup_email signupUserDto)) ;;
  if negb (length user =? 0)%nat
  then throw (BadRequestException "User with this email already exists")
  else
    let encPassword := hashPassword env (signup_password signupUserDto) in
    emailToken <- generateEmailToken (signup_email signupUserDto) ;;
    let newProfile := profileRepo_create (signup_profile signupUserDto) in
    let newUser :=
      {| id := None;
         email := signup_email signupUserDto;
         password := Some encPassword;
         role := userRole;
         status := None;
         email_consent := emailTermsConsent signupUserDto;
         sms_consent := smsConsent signupUserDto;
         email_verification_token := Some emailToken;
         reset_pass_token := None;
         reset_pass_token_expiry := None;
         last_login := None;
         profile := Some newProfile |} in
    sendVerificationEmail (signup_email signupUserDto) emailToken ;;;
    createdUser <- userRepo_save newUser ;;
    try_catch (createContact signupUserDto)
              (fun _ => ret tt) ;;;        (* logged, not rethrown *)
    ret (successHandler "User created successfully"
           (DataUser (delete_password createdUser))).

(** The test [userInfo.status === s]. *)
Definition status_is (s : Status.t) (u : User) : bool :=
  match status u with
  | Some s' => Status.eqb s' s
  | None => false
  end.

(** [resendVerificationEmail(email)] *)
Definition resendVerificationEmail (e : string) : M Response :=
  found <- findUserByEmail (Some e) ;;
  match found with
  | [] => throw (NotFoundException "User with this email does not exist")
  | userInfo :: _ =>
      if status_is Status.Active userInfo
      then throw (BadRequestException "Account already verified")
      else
        emailToken <- generateEmailToken e ;;
        sendVerificationEmail e emailToken ;;;
        userRepo_update (id userInfo)
                        (set_email_verification_token emailToken) ;;;
        ret (successHandler "Verification email sent successfully" DataEmpty)
  end.

(** [verifyEmail(token)]: the whole body sits in a [try] whose [catch]
    replaces whatever was thrown. *)
Definition verifyEmail (token : Token) : M Response :=
  try_catch
    (payload <- verifyEmailToken token ;;
     found <- findUserByEmail (claim_email payload) ;;
     match found with
     | [] => throw (NotFoundException "User with this email does not exist")
     | userInfo :: _ =>
         userRepo_update (id userInfo) (set_status Status.Active) ;;;
         ret (successHandler "Email verified successfully" DataEmpty)
     end)
    (fun _ => throw (BadRequestException
                       "Invalid or expired email verification token.")).

(** [loginEventRepo.create({ ... })] as [recordLoginEvent] fills it in; the
    [user] relation is persisted as the same foreign key as [userId]. *)
Definition loginEventRepo_create (env : Env) (user : User) (ok : bool)
           (method : string) (reason : option string) (req : option Req)
  : LoginEvent :=
  {| userId := id user;
     timestamp := now env;
     ipAddress := match req with Some r => ip r | None => None end;
     userAgent := match req with
                  | Some r => header_user_agent r
                  | None => None
                  end;
     deviceInfo := match req with
                   | Some r => header_sec_ch_ua r
                   | None => None
                   end;
     loginMethod := method;
     successful := ok;
     failureReason := reason |}.

(** [recordLoginEvent(user, successful, loginMethod, failureReason, req)] *)
Definition recordLoginEvent (user : User) (ok : bool) (method : string)
           (reason : option string) (req : option Req) : M unit :=
  env <- ask ;;
  loginEventRepo_save (loginEventRepo_create env user ok method reason req).

(** [bcrypt.compare(s, hash)] of [bcryptjs]: the promise is rejected when
    an argument is not a string, which is the case of a stored hash that is
    [null]; nothing of the caller runs after the rejected [await]. *)
Definition bcryptjs_compare (s : string) (hash : option string) : M bool :=
  env <- ask ;;
  match hash with
  | Some h => ret (bcrypt_compare env s h)
  | None => throw (Error "Illegal arguments: string, object")
  end.

(** [login(loginInfo, req)] *)
Definition login (loginInfo : CredLoginDto) (req : option Req) : M Response :=
  env <- ask ;;
  found <- findUserByEmail (Some (login_email loginInfo)) ;;
  match found with
  | [] => throw (NotFoundException "User with this email does not exist")
  | userInfo :: _ =>
      if status_is Status.Inactive userInfo then
        recordLoginEvent userInfo false "credentials"
                         (Some "Account Restricted") req ;;;
        throw (BadRequestException "Account Restricted!")
      else if status_is Status.Unverified userInfo then
        recordLoginEvent userInfo false "credentials"
                         (Some "Account not verified") req ;;;
        ret (successHandler "Account not verified"
               (DataEmail (email userInfo)))
      else
        isPasswordValid <- bcryptjs_compare (login_password loginInfo)
                                            (password userInfo) ;;
        if negb isPasswordValid then
          recordLoginEvent userInfo false "credentials"
                           (Some "Invalid password") req ;;;
          throw (BadRequestException "Invalid password")
        else
          let userInfo := set_last_login (now env) userInfo in
          userRepo_save userInfo ;;;
          recordLoginEvent userInfo true "credentials" None req ;;;
          tokens <- getTokens (id userInfo) (role userInfo) ;;
          ret (successHandler "Login successful"
                 (DataTokens (accessToken tokens) (refreshToken tokens)
                             (delete_password userInfo)))
  end.

(** The test [expires < new Date().getTime() / 1000] of [refreshTokens]: the
    right-hand side is a fraction, so the comparison is made in
    milliseconds; an absent [exp] compares false. *)
Definition refresh_expired (now : Z) (c : Claims) : bool :=
  match claim_exp c with
  | Some expires => expires * 1000 <? now
  | None => false
  end.

(** [refreshTokens(token)]: the token is only decoded, never verified, and
    the [catch] wraps whatever the body threw in a [BadRequestException]. *)
Definition refreshTokens (token : option Token) : M Response :=
  try_catch
    (env <- ask ;;
     match jwt_decode token with
     | None => throw (ForbiddenException "Access Denied")
     | Some decodedJwtRefreshToken =>
         if refresh_expired (now env) decodedJwtRefreshToken
         then throw (ForbiddenException "Access Denied")
         else
           found <- userRepo_findOneBy_id
                      (claim_sub decodedJwtRefreshToken) ;;
           match found with
           | None => throw (ForbiddenException "Access Denied")
           | Some userInfo =>
               tokens <- getTokens (id userInfo) (role userInfo) ;;
               ret (successHandler "Login successful"
                      (DataTokens (accessToken tokens) (refreshToken tokens)
                                  (delete_password userInfo)))
           end
     end)
    (fun err => throw (BadRequestException_of err)).

(** [googleLogin(googleLoginDto, req)] *)
Definition googleLogin (googleLoginDto : GoogleLoginDto) (req : option Req)
  : M Response :=
  env <- ask ;;
  found <- findUserByEmail (Some (google_email googleLoginDto)) ;;
  userInfo <- match found with
              | userInfo :: _ => ret userInfo
              | [] =>
                  let newUser :=
                    {| id := None;
                       email := google_email googleLoginDto;
                       password := None;
                       role := Role.User;
                       status := None;
                       email_consent := false;
                       sms_consent := false;
                       email_verification_token := None;
                       reset_pass_token := None;
                       reset_pass_token_expiry := None;
                       last_login := None;
                       profile := None |} in
                  userRepo_save newUser
              end ;;
  let userInfo := set_last_login (now env) userInfo in
  userRepo_save userInfo ;;;
  recordLoginEvent userInfo true "google" None req ;;;
  tokens <- getTokens (id userInfo) (role userInfo) ;;
  ret (successHandler "Login successful"
         (DataTokens (accessToken tokens) (refreshToken tokens)
                     (delete_password userInfo))).

(** [forgotPassword(email)] *)
Definition forgotPassword (e : string) : M Response :=
  env <- ask ;;
  found <- userRepo_findOne_email e ;;
  match found with
  | None => throw (NotFoundException "User not found.")
  | Some user =>
      let token :=
        jwt_sign (now env)
          {| claim_sub := None; claim_role := None; claim_email := None;
             claim_id := id user; claim_iat := None; claim_exp := None |}
          (JWT_SECRET env) 3600 in
      let user := set_reset (Some token)
                            (Some (now env + 60 * 60 * 1000)) user in
      userRepo_save user ;;;
      sendPasswordResetEmail e token ;;;
      ret (successHandler "Password reset link sent to your email." DataEmpty)
  end.

(** The test [user.reset_pass_token_expiry < new Date()]; a [null] expiry
    converts to 0. *)
Definition expiry_passed (now : Z) (expiry : option Z) : bool :=
  match expiry with
  | Some t => t <? now
  | None => 0 <? now
  end.

(** [resetPassword(token, newPassword)] *)
Definition resetPassword (token : Token) (newPassword : string) : M Response :=
  env <- ask ;;
  decoded <- try_catch (jwt_verify token (JWT_SECRET env))
               (fun _ => throw (BadRequestException
                                  "Invalid or expired token.")) ;;
  found <- userRepo_findOne_reset token (claim_id decoded) ;;
  match found with
  | None => throw (BadRequestException "Invalid or expired token.")
  | Some user =>
      if expiry_passed (now env) (reset_pass_token_expiry user)
      then throw (BadRequestException "Invalid or expired token.")
      else
        let encPassword := hashPassword env newPassword in
        let user := set_reset None None (set_password encPassword user) in
        userRepo_save user ;;;
        ret (successHandler "Password reset successful." DataEmpty)
  end.

(** ** Vocabulary of the statements *)

(** The response of every method that opens a session: the two tokens
    [getTokens] signs for the user, and the user without its password. *)
Definition session_response (env : Env) (u : User) : Response :=
  let payload := {| claim_sub := id u; claim_role := Some (role u);
                    claim_email := None; claim_id := None;
                    claim_iat := None; claim_exp := None |} in
  successHandler "Login successful"
    (DataTokens
       (jwt_sign (now env) payload (ACCESS_TOKEN_SECRET env)
                 (ACCESS_TOKEN_EXPIRATION_TIME env))
       (jwt_sign (now env) payload (REFRESH_TOKEN_SECRET env)
                 (REFRESH_TOKEN_EXPIRATION_TIME env))
       (delete_password u)).

(** A response that carries a token pair. *)
Definition issues_tokens (r : Response) : Prop :=
  exists a r' u, data r = DataTokens a r' u.

(** The entity [signUp] builds before it is saved. *)
Definition signUp_entity (env : Env) (dto : SignUpDto) (r : Role.t) : User :=
  {| id := None;
     email := signup_email dto;
     password := Some (hashPassword env (signup_password dto));
     role := r;
     status := None;
     email_consent := emailTermsConsent dto;
     sms_consent := smsConsent dto;
     email_verification_token :=
       Some (jwt_sign (now env)
               {| claim_sub := None; claim_role := None;
                  claim_email := Some (signup_email dto);
                  claim_id := None; claim_iat := None; claim_exp := None |}
               (JWT_SECRET env) 86400);
     reset_pass_token := None;
     reset_pass_token_expiry := None;
     last_login := None;
     profile := Some (profileRepo_create (signup_profile dto)) |}.

(** The public methods of the service. *)
Inductive Call :=
| CallSignUp (dto : SignUpDto) (r : Role.t)
| CallResendVerificationEmail (e : string)
| CallVerifyEmail (token : Token)
| CallLogin (loginInfo : CredLoginDto) (req : option Req)
| CallRefreshTokens (token : option Token)
| CallGoogleLogin (dto : GoogleLoginDto) (req : option Req)
| CallForgotPassword (e : string)
| CallResetPassword (token : Token) (newPassword : string).

Definition run (c : Call) : M Response :=
  match c with
  | CallSignUp dto r => signUp dto r
  | CallResendVerificationEmail e => resendVerificationEmail e
  | CallVerifyEmail token => verifyEmail token
  | CallLogin loginInfo req => login loginInfo req
  | CallRefreshTokens token => refreshTokens token
  | CallGoogleLogin dto req => googleLogin dto req
  | CallForgotPassword e => forgotPassword e
  | CallResetPassword token newPassword => resetPassword token newPassword
  end.

(** The user a response carries, if it carries one. *)
Definition returned_user (r : Response) : option User :=
  match data r with
  | DataUser u | DataTokens _ _ u => Some u
  | DataEmpty | DataEmail _ => None
  end.

Definition stripped (r : Response) : Prop :=
  forall u, returned_user r = Some u -> password u = None.

(** [returns m P]: whatever [m] returns satisfies [P]. *)
Definition returns {A} (m : M A) (P : A -> Prop) : Prop :=
  forall env w w' a, m env w = (w', inr a) -> P a.

(** What a caller of [verifyEmail] gets for every failure of its body. *)
Definition InvalidOrExpiredEmailToken : Exception :=
  BadRequestException "Invalid or expired email verification token.".

(** What a caller of [resetPassword] gets for every failure. *)
Definition InvalidOrExpiredToken : Exception :=
  BadRequestException "Invalid or expired token.".

(** What a caller of [refreshTokens] gets for every refusal: the
    [ForbiddenException] of the body, wrapped by the [catch]. *)
Definition AccessDenied : Exception :=
  BadRequestException_of (ForbiddenException "Access Denied").

(** The refresh tokens the method refuses: a missing one, one that does not
    decode, one whose [exp] lies before the clock, and one for whose subject
    the lookup finds no user.  A token without a subject is looked up
    without a condition, so it finds the first user and is refused on this
    ground only when there are no users.  The tag of the token plays no
    part. *)
Inductive refresh_refused (env : Env) (w : World) : option Token -> Prop :=
| refused_missing :
    refresh_refused env w None
| refused_undecodable t :
    jwt_decode (Some t) = None ->
    refresh_refused env w (Some t)
| refused_expired t c :
    jwt_decode (Some t) = Some c ->
    refresh_expired (now env) c = true ->
    refresh_refused env w (Some t)
| refused_unknown_subject t c :
    jwt_decode (Some t) = Some c ->
    userRepo_findOneBy_id (claim_sub c) env w = (w, inr None) ->
    refresh_refused env w (Some t).

(** The row [resetPassword] writes back. *)
Definition after_reset (env : Env) (newPassword : string) (user : User)
  : User :=
  set_reset None None (set_password (hashPassword env newPassword) user).

Section ResetConditions.

Variables (env : Env) (w : World) (token : Token).

(** The matching user record: the row the lookup of [resetPassword]
    returns, that is the first row whose stored reset token is the
    presented one and whose id is the token's [id] claim, when the token
    has one. *)
Definition matching_user (decoded : Claims) (user : User) : Prop :=
  find (reset_where token (claim_id decoded)) (users w) = Some user.





End ResetConditions.


(** A token that carries an [id] claim, as every token that
    [forgotPassword] signs does. *)
Definition carries_id (token : Token) : Prop :=
  exists decoded i,
    jwt_decode (Some token) = Some decoded /\ claim_id decoded = Some i.

(** ** A concrete deployment, used to run the service *)

Module Scenario.

Definition env_with (mail crm : option string) (t : Z) (new_id : string)
  : Env :=
  {| now := t;
     uuid := new_id;
     ACCESS_TOKEN_SECRET := "access-secret";
     ACCESS_TOKEN_EXPIRATION_TIME := 900;
     REFRESH_TOKEN_SECRET := "refresh-secret";
     REFRESH_TOKEN_EXPIRATION_TIME := 604800;
     JWT_SECRET := "jwt-secret";
     hashPassword := fun p => "bcrypt:" ++ p;
     bcrypt_compare := fun p h => String.eqb h ("bcrypt:" ++ p);
     bcrypt_native_compare := fun p h => String.eqb h ("bcrypt:" ++ p);
     sendVerificationEmail_fault := mail;
     sendPasswordResetEmail_fault := None;
     createContact_fault := crm |}.

(** All collaborators up. *)
Definition env_at : Z -> string -> Env := env_with None None.

Definition world_of (us : list User) : World :=
  {| users := us; login_events := []; outbox := []; contacts := [] |}.

Definition alice_dto : SignUpDto :=
  {| signup_email := "a@x.com";
     signup_password := "P@ssw0rd";
     signup_profile := {| businessName := "Alice Ltd";
                          dto_website := "https://a.x.com";
                          stateRegion := "Dhaka";
                          dto_country := "BD";
                          utilizationPurpose := "education";
                          dto_interests := ["film"] |};
     emailTermsConsent := true;
     smsConsent := false |}.

(** Clock readings, in milliseconds: sign-up, one minute later, two minutes
    later, and eight days later. *)
Definition t0 : Z := 1700000000000.
Definition t1 : Z := t0 + 60000.
Definition t2 : Z := t0 + 120000.
Definition t8d : Z := t0 + 8 * 86400000.

Definition email_claims (e : string) : Claims :=
  {| claim_sub := None; claim_role := None; claim_email := Some e;
     claim_id := None; claim_iat := None; claim_exp := None |}.

(** The verification token signed for Alice at [t0], and the one signed
    when she asks for a new mail at [t1]. *)
Definition alice_token0 : Token :=
  jwt_sign t0 (email_claims "a@x.com") "jwt-secret" 86400.
Definition alice_token1 : Token :=
  jwt_sign t1 (email_claims "a@x.com") "jwt-secret" 86400.

(** A well-signed verification token for an email nobody registered. *)
Definition ghost_token : Token :=
  jwt_sign t0 (email_claims "ghost@x.com") "jwt-secret" 86400.

(** Alice as [signUp] stores her at [t0]. *)
Definition alice : User :=
  {| id := Some "u-1";
     email := "a@x.com";
     password := Some "bcrypt:P@ssw0rd";
     role := Role.User;
     status := Some Status.Unverified;
     email_consent := true;
     sms_consent := false;
     email_verification_token := Some alice_token0;
     reset_pass_token := None;
     reset_pass_token_expiry := None;
     last_login := None;
     profile := Some (profileRepo_create (signup_profile alice_dto)) |}.

Definition alice_active : User := set_status Status.Active alice.
Definition alice_inactive : User := set_status Status.Inactive alice.

Definition session_claims (sub : string) (r : Role.t) : Claims :=
  {| claim_sub := Some sub; claim_role := Some r; claim_email := None;
     claim_id := None; claim_iat := None; claim_exp := None |}.

(** The refresh token issued to Alice at [t0]; it expires after seven days. *)
Definition alice_refresh : Token :=
  jwt_sign t0 (session_claims "u-1" Role.User) "refresh-secret" 604800.

(** The same token with its payload edited (role raised, expiry pushed a
    year out) and its tag left as it was: the tag no longer verifies. *)
Definition alice_refresh_tampered : Token :=
  match alice_refresh with
  | Jws c tag =>
      Jws {| claim_sub := claim_sub c; claim_role := Some Role.Admin;
             claim_email := claim_email c; claim_id := claim_id c;
             claim_iat := claim_iat c;
             claim_exp := Some (t0 / 1000 + 365 * 86400) |} tag
  | Raw s => Raw s
  end.

(** The reset token [forgotPassword] signs for Alice at [t1], and Alice with
    it stored. *)
Definition alice_reset_token : Token :=
  jwt_sign t1 {| claim_sub := None; claim_role := None; claim_email := None;
                 claim_id := Some "u-1"; claim_iat := None;
                 claim_exp := None |} "jwt-secret" 3600.
Definition alice_forgot : User :=
  set_reset (Some alice_reset_token) (Some (t1 + 60 * 60 * 1000)) alice_active.


(** Carol signs in with her identity provider at [t0], asks for a
    verification mail at [t1] and verifies her email at [t2]: an [Active]
    account without a password. *)
Definition carol_token : Token :=
  jwt_sign t1 (email_claims "c@x.com") "jwt-secret" 86400.

Definition carol_world : World :=
  fst (verifyEmail carol_token (env_at t2 "u-6")
         (fst (resendVerificationEmail "c@x.com" (env_at t1 "u-6")
                 (fst (googleLogin {| google_email := "c@x.com" |} None
                                   (env_at t0 "u-5") (world_of [])))))).

Definition carol : User :=
  {| id := Some "u-5";
     email := "c@x.com";
     password := None;
     role := Role.User;
     status := Some Status.Active;
     email_consent := false;
     sms_consent := false;
     email_verification_token := Some carol_token;
     reset_pass_token := None;
     reset_pass_token_expiry := None;
     last_login := Some t0;
     profile := None |}.

End Scenario.

(** ** Vocabulary of the further properties *)

(** A user table as the store keeps it: ids are a primary key, every row
    has one, and emails are unique. *)
Definition table_ok (us : list User) : Prop :=
  NoDup (map id us)
  /\ ~ In None (map id us)
  /\ NoDup (map email us).

Definition store_ok (w : World) : Prop := table_ok (users w).

(** The id the store would give to the next inserted row is not in use. *)
Definition fresh_id (env : Env) (w : World) : Prop :=
  ~ In (Some (uuid env)) (map id (users w)).

(** The ways one call of the service changes the user table: not at all;
    by writing back a row it has read, with the same id and email; by
    editing the rows of one id in place, keeping id and email; or by
    appending one row with the generated id and an email nobody has. *)
Inductive users_step (env : Env) (us : list User) : list User -> Prop :=
| step_same :
    users_step env us us
| step_write_back u0 u :
    In u0 us -> id u = id u0 -> email u = email u0 ->
    users_step env us (update_rows (id u0) (fun _ => u) us)
| step_edit key f :
    (forall r, id (f r) = id r /\ email (f r) = email r) ->
    users_step env us (update_rows key f us)
| step_insert u :
    id u = Some (uuid env) ->
    (forall r, In r us -> email r <> email u) ->
    users_step env us (us ++ [u]).

(** A user with the login time forgotten. *)
Definition forget_last_login (u : User) : User :=
  {| id := id u; email := email u; password := password u; role := role u;
     status := status u;
     email_consent := email_consent u; sms_consent := sms_consent u;
     email_verification_token := email_verification_token u;
     reset_pass_token := reset_pass_token u;
     reset_pass_token_expiry := reset_pass_token_expiry u;
     last_login := None; profile := profile u |}.

(** The entity [googleLogin] builds for an email it does not know. *)
Definition googleLogin_entity (dto : GoogleLoginDto) : User :=
  {| id := None;
     email := google_email dto;
     password := None;
     role := Role.User;
     status := None;
     email_consent := false;
     sms_consent := false;
     email_verification_token := None;
     reset_pass_token := None;
     reset_pass_token_expiry := None;
     last_login := None;
     profile := None |}.

(** The token [forgotPassword] signs for a user at clock [t]. *)
Definition reset_token_for (env : Env) (user : User) : Token :=
  jwt_sign (now env)
    {| claim_sub := None; claim_role := None; claim_email := None;
       claim_id := id user; claim_iat := None; claim_exp := None |}
    (JWT_SECRET env) 3600.

(** The token [generateEmailToken] signs for an email at the clock of
    [env]. *)
Definition email_token_for (env : Env) (e : string) : Token :=
  jwt_sign (now env)
    {| claim_sub := None; claim_role := None; claim_email := Some e;
       claim_id := None; claim_iat := None; claim_exp := None |}
    (JWT_SECRET env) 86400.

(** A login event as a call may record it: stamped with the clock of the
    call, by [login] under the method "credentials" or by [googleLogin]
    under the method "google" and as a success. *)
Definition recorded_by (c : Call) (env : Env) (ev : LoginEvent) : Prop :=
  timestamp ev = now env
  /\ ((exists loginInfo req,
          c = CallLogin loginInfo req /\ loginMethod ev = "credentials")
      \/ (exists dto req,
             c = CallGoogleLogin dto req
             /\ loginMethod ev = "google" /\ successful ev = true)).

(** ** The earlier AuthService

    The first [AuthService] class of the file (lines 100-253): no email
    verification, no login events, no password reset.  Its [getTokens] and
    [refreshTokens] are, statement for statement, the ones above; its
    [login] and [signUp] differ and are embedded here. *)

Module Legacy.

(** The properties of its [SignUpDto] that the service reads; what else the
    spread [...signupUserDto] copies into the entity is not read by any
    method. *)
Record SignUpDto := { signup_email : string; signup_password : string }.

(** [bcrypt.compare(data, hash)] of the native [bcrypt] library: the
    promise is rejected when an argument is [null] or [undefined]. *)
Definition bcrypt_compare_native (data : string) (hash : option string)
  : M bool :=
  env <- ask ;;
  match hash with
  | Some h => ret (bcrypt_native_compare env data h)
  | None => throw (Error "data and hash arguments required")
  end.

(** [login(loginInfo)] *)
Definition login (loginInfo : CredLoginDto) : M Response :=
  env <- ask ;;
  found <- findUserByEmail (Some (login_email loginInfo)) ;;
  match found with
  | [] => throw (NotFoundException "User with this email does not exist")
  | userInfo :: _ =>
      if status_is Status.Inactive userInfo
      then throw (BadRequestException "Account Restricted!")
      else
        isPasswordValid <- bcrypt_compare_native (login_password loginInfo)
                                                 (password userInfo) ;;
        if negb isPasswordValid
        then throw (BadRequestException "Invalid password")
        else
          tokens <- getTokens (id userInfo) (role userInfo) ;;
          ret (successHandler "Login successful"
                 (DataTokens (accessToken tokens) (refreshToken tokens)
                             (delete_password userInfo)))
  end.

(** [signUp(signupUserDto, userRole)]: the user is saved, then logged in
    with the password just given. *)
Definition signUp (signupUserDto : SignUpDto) (userRole : Role.t)
  : M Response :=
  env <- ask ;;
  user <- findUserByEmail (Some (signup_email signupUserDto)) ;;
  if negb (length user =? 0)%nat
  then throw (BadRequestException "User with this email already exists")
  else
    let encPassword := hashPassword env (signup_password signupUserDto) in
    let newUser :=
      {| id := None;
         email := signup_email signupUserDto;
         password := Some encPassword;
         role := userRole;
         status := None;
         email_consent := false;
         sms_consent := false;
         email_verification_token := None;
         reset_pass_token := None;
         reset_pass_token_expiry := None;
         last_login := None;
         profile := None |} in
    userRepo_save newUser ;;;
    login {| login_email := signup_email signupUserDto;
             login_password := signup_password signupUserDto |}.

(** The entity [signUp] builds before it is saved. *)
Definition signUp_entity (env : Env) (dto : SignUpDto) (r : Role.t) : User :=
  {| id := None;
     email := signup_email dto;
     password := Some (hashPassword env (signup_password dto));
     role := r;
     status := None;
     email_consent := false;
     sms_consent := false;
     email_verification_token := None;
     reset_pass_token := None;
     reset_pass_token_expiry := None;
     last_login := None;
     profile := None |}.

End Legacy.

(** Two answers of a login that agree: the same exception, or a session
    with the same two tokens for the same user up to [last_login]. *)
Definition same_verdict (a b : Exception + Response) : Prop :=
  match a, b with
  | inl e, inl e' => e = e'
  | inr r, inr r' =>
      message r = message r'
      /\ exists access refresh u u',
           data r = DataTokens access refresh u
           /\ data r' = DataTokens access refresh u'
           /\ forget_last_login u = forget_last_login u'
  | _, _ => False
  end.

(** ** VideoService

    The catalogue service of the same file (lines 10-79), over the list of
    stored videos.  [searchVideos] is left out: what SQL [LIKE] matches
    depends on the pattern characters in the keyword and on the collation
    of the database. *)

Module VideoService.

(** The entity of [src/entities/video.entity] is not part of the sources;
    its columns here are the ones the service names: the key of the
    lookups, the seven text columns [searchVideos] queries, and
    [video_url]. *)
Record Video := {
  id : option string;
  title : string;
  genre : string;
  short_desc : string;
  about : string;
  primary_lesson : string;
  theme : string;
  impact : string;
  video_url : string
}.

(** [CreateUpdateVideoDto]: the text columns a new video is given. *)
Record CreateUpdateVideoDto := {
  dto_title : string;
  dto_genre : string;
  dto_short_desc : string;
  dto_about : string;
  dto_primary_lesson : string;
  dto_theme : string;
  dto_impact : string
}.

(** [Partial<Video>]: any of the columns, each present or not. *)
Record PartialVideo := {
  new_title : option string;
  new_genre : option string;
  new_short_desc : option string;
  new_about : option string;
  new_primary_lesson : option string;
  new_theme : option string;
  new_impact : option string;
  new_video_url : option string
}.

(** What [videoRepo.findBy] returns: a JavaScript array.  Besides its
    elements an array is an object, and [Object.assign(array, source)]
    puts the properties of [source] on that object, not on its elements. *)
Record VideoArray := {
  items : list Video;
  assigned : option PartialVideo
}.

Inductive Data :=
| DataVideos (videos : list Video)
| DataVideo (video : Video)
| DataArray (video : VideoArray)
| DataNull.

(** The two handlers of [src/utils/response.handler], which are not part
    of the sources: each builds the value the method returns. *)
Inductive Result :=
| successHandler (message : string) (data : Data)
| errorhandler (code : Z) (message : string).

Definition id_is (key : string) (v : Video) : bool :=
  where_string (Some key) (id v).

(** [videoRepo.findBy({ id })] *)
Definition findBy_id (key : string) (videos : list Video) : VideoArray :=
  {| items := filter (id_is key) videos; assigned := None |}.

(** [!video] for an array: an array, also the empty one, is truthy. *)
Definition falsy (video : VideoArray) : bool := false.

(** [Object.assign(video, attributes)] for an array [video]. *)
Definition Object_assign (video : VideoArray) (attributes : PartialVideo)
  : VideoArray :=
  {| items := items video; assigned := Some attributes |}.

(** [videoRepo.save] of one entity: the rows with its id are overwritten,
    or the entity is appended. *)
Definition save_one (videos : list Video) (v : Video) : list Video :=
  if existsb (fun r => where_string (id v) (id r)) videos
  then map (fun r => if where_string (id v) (id r) then v else r) videos
  else (videos ++ [v])%list.

(** [videoRepo.save(array)]: every element is saved; properties of the
    array object are not entities and are not looked at. *)
Definition save_all (video : VideoArray) (videos : list Video) : list Video :=
  fold_left save_one (items video) videos.

(** [videoRepo.remove(array)]: the rows of the elements are deleted. *)
Definition remove_all (video : VideoArray) (videos : list Video)
  : list Video :=
  filter (fun r => negb (existsb (fun v => where_string (id v) (id r))
                                 (items video)))
         videos.

(** [findAllVideos()] *)
Definition findAllVideos (videos : list Video) : Result :=
  successHandler "Video found" (DataVideos videos).

(** [findVideoById(id)]: the array itself is returned. *)
Definition findVideoById (key : string) (videos : list Video) : list Video :=
  items (findBy_id key videos).

(** [findVideosByGenre(genre)] *)
Definition findVideosByGenre (g : string) (videos : list Video)
  : list Video :=
  filter (fun v => String.eqb g (genre v)) videos.

(** [createVideo(thumbnail, attributes)].  [upload] is the outcome of
    [CloudinaryUpload]: a fault or the [secure_url]; [new_id] is the id the
    store gives the inserted row. *)
Definition createVideo (upload : string + string) (new_id : string)
           (attributes : CreateUpdateVideoDto) (videos : list Video)
  : list Video * (Exception + Result) :=
  match upload with
  | inl fault => (videos, inl (Error fault))
  | inr secure_url =>
      let newVideo :=
        {| id := Some new_id;
           title := dto_title attributes;
           genre := dto_genre attributes;
           short_desc := dto_short_desc attributes;
           about := dto_about attributes;
           primary_lesson := dto_primary_lesson attributes;
           theme := dto_theme attributes;
           impact := dto_impact attributes;
           video_url := secure_url |} in
      ((videos ++ [newVideo])%list,
       inr (successHandler "Video created successfully" (DataVideo newVideo)))
  end.

(** [updateVideo(id, attributes)] *)
Definition updateVideo (key : string) (attributes : PartialVideo)
           (videos : list Video) : list Video * Result :=
  let video := findBy_id key videos in
  if falsy video then (videos, errorhandler 404 "Video not found")
  else
    let video := Object_assign video attributes in
    (save_all video videos,
     successHandler "Video updated successfully" (DataArray video)).

(** [deleteVideo(id)] *)
Definition deleteVideo (key : string) (videos : list Video)
  : list Video * Result :=
  let video := findBy_id key videos in
  if falsy video then (videos, errorhandler 404 "Video not found")
  else
    (remove_all video videos,
     successHandler "Video deleted successfully" DataNull).

End VideoService.

(** ** A small catalogue, used to run the VideoService *)

Module Catalogue.

Definition video (key name g : string) : VideoService.Video :=
  {| VideoService.id := Some key;
     VideoService.title := name;
     VideoService.genre := g;
     VideoService.short_desc := "";
     VideoService.about := "";
     VideoService.primary_lesson := "";
     VideoService.theme := "";
     VideoService.impact := "";
     VideoService.video_url := "https://cdn.example/" ++ key |}.

Definition shelf : list VideoService.Video :=
  [video "v-1" "Rivers" "nature"; video "v-2" "Looms" "craft"].

Definition retitle (name : string) : VideoService.PartialVideo :=
  {| VideoService.new_title := Some name;
     VideoService.new_genre := None;
     VideoService.new_short_desc := None;
     VideoService.new_about := None;
     VideoService.new_primary_lesson := None;
     VideoService.new_theme := None;
     VideoService.new_impact := None;
     VideoService.new_video_url := None |}.

Definition dunes : VideoService.CreateUpdateVideoDto :=
  {| VideoService.dto_title := "Dunes";
     VideoService.dto_genre := "nature";
     VideoService.dto_short_desc := "Sand on the move";
     VideoService.dto_about := "";
     VideoService.dto_primary_lesson := "";
     VideoService.dto_theme := "";
     VideoService.dto_impact := "" |}.

End Catalogue.
(** * Verification *)

(** ** Stepping through a method *)

Lemma bind_inr {A B} (m : M A) (k : A -> M B) env w w' a :
  m env w = (w', inr a) -> bind m k env w = k a env w'.
Proof. unfold bind; intros ->; reflexivity. Qed.

Lemma bind_inl {A B} (m : M A) (k : A -> M B) env w w' e :
  m env w = (w', inl e) -> bind m k env w = (w', inl e).
Proof. unfold bind; intros ->; reflexivity. Qed.

Lemma try_catch_inr {A} (m : M A) h env w w' a :
  m env w = (w', inr a) -> try_catch m h env w = (w', inr a).
Proof. unfold try_catch; intros ->; reflexivity. Qed.

Lemma try_catch_inl {A} (m : M A) h env w w' e :
  m env w = (w', inl e) -> try_catch m h env w = h e env w'.
Proof. unfold try_catch; intros ->; reflexivity. Qed.

Ltac step_M := unfold bind, ret, throw, try_catch, ask, get, put.

Lemma session_response_issues_tokens env u :
  issues_tokens (session_response env u).
Proof. unfold issues_tokens, session_response; cbn; eauto. Qed.

Lemma userRepo_save_login_events u env w :
  login_events (fst (userRepo_save u env w)) = login_events w.
Proof.
  unfold userRepo_save; step_M.
  destruct (existsb _ _); reflexivity.
Qed.

(** ** Login *)

(** What [login] does once a user is found, branch by branch. *)
Lemma login_found env w loginInfo req userInfo rest :
  findUserByEmail (Some (login_email loginInfo)) env w
  = (w, inr (userInfo :: rest)) ->
  login loginInfo req env w =
  if status_is Status.Inactive userInfo then
    (add_login_event
       (loginEventRepo_create env userInfo false "credentials"
          (Some "Account Restricted") req) w,
     inl (BadRequestException "Account Restricted!"))
  else if status_is Status.Unverified userInfo then
    (add_login_event
       (loginEventRepo_create env userInfo false "credentials"
          (Some "Account not verified") req) w,
     inr (successHandler "Account not verified"
            (DataEmail (email userInfo))))
  else
    match password userInfo with
    | None => (w, inl (Error "Illegal arguments: string, object"))
    | Some hash =>
        if bcrypt_compare env (login_password loginInfo) hash
        then
          let logged := set_last_login (now env) userInfo in
          (add_login_event
             (loginEventRepo_create env logged true "credentials" None req)
             (fst (userRepo_save logged env w)),
           inr (session_response env logged))
        else
          (add_login_event
             (loginEventRepo_create env userInfo false "credentials"
                (Some "Invalid password") req) w,
           inl (BadRequestException "Invalid password"))
    end.
Proof.
  intros found. unfold login.
  rewrite (bind_inr ask _ env w w env) by reflexivity.
  rewrite (bind_inr _ _ _ _ _ _ found).
  destruct (status_is Status.Inactive userInfo); [reflexivity|].
  destruct (status_is Status.Unverified userInfo); [reflexivity|].
  unfold bcryptjs_compare.
  destruct (password userInfo) as [hash|]; [|reflexivity].
  step_M.
  destruct (bcrypt_compare env _ _); cbn [negb]; [|reflexivity].
  unfold userRepo_save. step_M.
  destruct (existsb _ _); reflexivity.
Qed.

(** The four branches [login] writes out each record exactly one event:
    when the user found is [Inactive] or [Unverified] or has a stored
    hash, the ledger grows by one record, for that user and the
    credentials method, marked successful exactly when a token pair is
    returned. *)
Lemma login_with_hash_records_exactly_one_event
      env w loginInfo req userInfo rest :
  findUserByEmail (Some (login_email loginInfo)) env w
  = (w, inr (userInfo :: rest)) ->
  status_is Status.Inactive userInfo = true
  \/ status_is Status.Unverified userInfo = true
  \/ password userInfo <> None ->
  exists ev,
    login_events (fst (login loginInfo req env w))
    = (login_events w ++ [ev])%list
    /\ userId ev = id userInfo
    /\ loginMethod ev = "credentials"
    /\ (successful ev = true <->
        exists r, snd (login loginInfo req env w) = inr r /\ issues_tokens r).
Proof.
  intros found branch. rewrite (login_found _ _ _ req _ _ found).
  destruct (status_is Status.Inactive userInfo).
  { eexists; repeat split; try reflexivity; cbn.
    - discriminate.
    - intros (r & H & _); discriminate. }
  destruct (status_is Status.Unverified userInfo).
  { eexists; repeat split; try reflexivity; cbn.
    - discriminate.
    - intros (r & H & a & r' & u & D). injection H as <-. discriminate. }
  destruct (password userInfo) as [hash|].
  2: { destruct branch as [B|[B|B]]; [discriminate|discriminate|easy]. }
  destruct (bcrypt_compare env _ _).
  - eexists. split; [|split; [|split]].
    + cbn [fst add_login_event login_events].
      rewrite userRepo_save_login_events. reflexivity.
    + reflexivity.
    + reflexivity.
    + split; [intros _|reflexivity].
      cbn [snd]. eexists; split; [reflexivity|].
      apply session_response_issues_tokens.
  - eexists; repeat split; try reflexivity; cbn.
    + discriminate.
    + intros (r & H & _); discriminate.
Qed.


(** The credentials path for an [Inactive] user: one failed event, then the
    call fails. *)
Lemma login_inactive env w loginInfo req userInfo rest :
  findUserByEmail (Some (login_email loginInfo)) env w
  = (w, inr (userInfo :: rest)) ->
  status userInfo = Some Status.Inactive ->
  exists ev,
    login loginInfo req env w
    = (add_login_event ev w, inl (BadRequestException "Account Restricted!"))
    /\ userId ev = id userInfo
    /\ successful ev = false
    /\ failureReason ev = Some "Account Restricted".
Proof.
  intros found St. rewrite (login_found _ _ _ req _ _ found).
  unfold status_is. rewrite St. cbn.
  eexists; repeat split.
Qed.

(** ** Sign-up *)

Lemma existsb_same_id_None us : existsb (same_id None) us = false.
Proof. induction us as [|u us IH]; [reflexivity|exact IH]. Qed.

(** What [signUp] does for an email nobody has registered. *)
Lemma signUp_fresh env w dto r :
  findUserByEmail (Some (signup_email dto)) env w = (w, inr []) ->
  signUp dto r env w =
  match sendVerificationEmail_fault env with
  | Some msg => (w, inl (Error msg))
  | None =>
      let created := with_generated (uuid env) (signUp_entity env dto r) in
      ({| users := users w ++ [created];
          login_events := login_events w;
          outbox := outbox w ++
                    [VerificationEmail (signup_email dto)
                       match email_verification_token created with
                       | Some t => t
                       | None => Raw ""
                       end];
          contacts := match createContact_fault env with
                      | Some _ => contacts w
                      | None => contacts w ++ [dto]
                      end |},
       inr (successHandler "User created successfully"
              (DataUser (delete_password created))))
  end.
Proof.
  intros fresh. unfold signUp.
  rewrite (bind_inr ask _ env w w env) by reflexivity.
  rewrite (bind_inr _ _ _ _ _ _ fresh). cbn [length Nat.eqb negb].
  unfold generateEmailToken, sendVerificationEmail, userRepo_save,
    createContact, deliver.
  step_M.
  destruct (sendVerificationEmail_fault env); [reflexivity|].
  cbn [users id set_users]. rewrite existsb_same_id_None.
  destruct (createContact_fault env); reflexivity.
Qed.

(** C10.  In [signUp] for a fresh email, a failure of the verification mail
    aborts the call before anything is persisted (the world is unchanged),
    whereas a failure of the contact sync is swallowed: the user is
    persisted and returned all the same. *)
Theorem signUp_mail_failure_aborts_contact_failure_swallowed
        env w dto r :
  findUserByEmail (Some (signup_email dto)) env w = (w, inr []) ->
  (forall msg, sendVerificationEmail_fault env = Some msg ->
     signUp dto r env w = (w, inl (Error msg)))
  /\ (forall msg, sendVerificationEmail_fault env = None ->
        createContact_fault env = Some msg ->
        exists created,
          snd (signUp dto r env w)
          = inr (successHandler "User created successfully"
                   (DataUser (delete_password created)))
          /\ users (fst (signUp dto r env w)) = (users w ++ [created])%list
          /\ email created = signup_email dto
          /\ contacts (fst (signUp dto r env w)) = contacts w).
Proof.
  intros fresh. rewrite (signUp_fresh _ _ _ r fresh). split.
  - intros msg ->. reflexivity.
  - intros msg -> ->. eexists. repeat split.
Qed.

(** *** No method returns a password *)

Lemma stripped_no_user msg d :
  returned_user (successHandler msg d) = None -> stripped (successHandler msg d).
Proof. intros H u E. rewrite H in E. discriminate. Qed.

Lemma stripped_delete_password msg u :
  stripped (successHandler msg (DataUser (delete_password u))).
Proof. intros u' E. injection E as <-. reflexivity. Qed.

Lemma stripped_tokens msg a r u :
  stripped (successHandler msg (DataTokens a r (delete_password u))).
Proof. intros u' E. injection E as <-. reflexivity. Qed.

Create HintDb strip.
#[local] Hint Resolve stripped_delete_password stripped_tokens : strip.

(** The rules of [returns], one per construct of the monad. *)

Lemma returns_ret {A} (a : A) (P : A -> Prop) : P a -> returns (ret a) P.
Proof. intros H env w w' a' E. injection E as _ <-. exact H. Qed.

Lemma returns_throw {A} e (P : A -> Prop) : returns (throw e) P.
Proof. intros env w w' a E. discriminate E. Qed.

Lemma returns_bind {A B} (m : M A) (k : A -> M B) (P : B -> Prop) :
  (forall a, returns (k a) P) -> returns (bind m k) P.
Proof.
  intros H env w w' b. unfold bind.
  destruct (m env w) as [w1 [e|a]]; [discriminate|].
  apply H.
Qed.

Lemma returns_try_catch {A} (m : M A) h (P : A -> Prop) :
  returns m P -> (forall e, returns (h e) P) -> returns (try_catch m h) P.
Proof.
  intros Hm Hh env w w' a. unfold try_catch.
  destruct (m env w) as [w1 [e|a1]] eqn:E.
  - apply Hh.
  - intros E'. injection E' as _ <-. exact (Hm _ _ _ _ E).
Qed.

Ltac returns_step :=
  match goal with
  | |- returns (bind _ _) _ => apply returns_bind; intros
  | |- returns (try_catch _ _) _ => apply returns_try_catch; intros
  | |- returns (throw _) _ => apply returns_throw
  | |- returns (ret _) _ => apply returns_ret
  | |- returns (match ?x with _ => _ end) _ => destruct x
  end.

Lemma run_stripped c : returns (run c) stripped.
Proof.
  destruct c; cbn [run];
    unfold signUp, resendVerificationEmail, verifyEmail, login,
      refreshTokens, googleLogin, forgotPassword, resetPassword;
    repeat returns_step;
    solve [ auto with strip | apply stripped_no_user; reflexivity ].
Qed.

(** C7.  A sign-up with an email nobody has registered, whose verification
    mail goes out, returns a user whose status is [Unverified], whose
    email-verification token is present (the token just signed for that
    email), and whose password is absent; and no method of the service ever
    returns a user that still has its password. *)
Theorem signUp_returns_unverified_user_without_password env w dto r :
  findUserByEmail (Some (signup_email dto)) env w = (w, inr []) ->
  sendVerificationEmail_fault env = None ->
  (exists w' u token,
      signUp dto r env w
      = (w', inr (successHandler "User created successfully" (DataUser u)))
      /\ email u = signup_email dto
      /\ status u = Some Status.Unverified
      /\ email_verification_token u = Some token
      /\ jwt_decode (Some token)
         = Some {| claim_sub := None; claim_role := None;
                   claim_email := Some (signup_email dto);
                   claim_id := None;
                   claim_iat := Some (now env / 1000);
                   claim_exp := Some (now env / 1000 + 86400) |}
      /\ password u = None)
  /\ (forall c env0 w0 w1 r0 u0,
        run c env0 w0 = (w1, inr r0) ->
        returned_user r0 = Some u0 -> password u0 = None).
Proof.
  intros fresh sent. split.
  - rewrite (signUp_fresh _ _ _ r fresh), sent.
    do 3 eexists. repeat split.
  - intros c env0 w0 w1 r0 u0 E. exact (run_stripped c _ _ _ _ E u0).
Qed.

(** ** Email verification *)

Lemma jwt_verify_world token secret env w :
  fst (jwt_verify token secret env w) = w.
Proof.
  unfold jwt_verify; step_M. destruct token; [reflexivity|].
  destruct (negb _); [reflexivity|].
  destruct (jwt_expired _ _); reflexivity.
Qed.

(** [jwt.verify] returns the claims exactly when the token is a JWS whose
    tag verifies under the secret and whose [exp] has not been reached. *)
Lemma jwt_verify_inr token secret env w w' c :
  jwt_verify token secret env w = (w', inr c) <->
  w' = w /\ jwt_decode (Some token) = Some c
  /\ signature_verifies secret token = true
  /\ jwt_expired (now env) c = false.
Proof.
  unfold jwt_verify; step_M. destruct token as [s|payload sig].
  - split; [discriminate|]. intros (_ & D & _). discriminate.
  - cbn [jwt_decode].
    destruct (signature_verifies secret (Jws payload sig)); cbn [negb].
    + destruct (jwt_expired (now env) payload) eqn:X.
      * split; [discriminate|]. intros (_ & D & _ & F).
        injection D as <-. congruence.
      * split.
        -- intros E. injection E as <- <-. auto.
        -- intros (-> & D & _). injection D as <-. reflexivity.
    + split; [discriminate|]. intros (_ & _ & F & _). discriminate.
Qed.

Lemma jwt_verify_cases token secret env w :
  (exists c, jwt_verify token secret env w = (w, inr c))
  \/ (exists e, jwt_verify token secret env w = (w, inl e)).
Proof.
  unfold jwt_verify; step_M. destruct token; [right; eauto|].
  destruct (negb _); [right; eauto|].
  destruct (jwt_expired _ _); [right|left]; eauto.
Qed.

Lemma findUserByEmail_run key env w :
  findUserByEmail key env w
  = (w, inr (filter (fun u => where_string key (Some (email u))) (users w))).
Proof. reflexivity. Qed.

(** What [verifyEmail] does, in terms of the outcome of [jwt.verify] and of
    the lookup by the embedded email. *)
Lemma verifyEmail_run env w token :
  verifyEmail token env w =
  match jwt_verify token (JWT_SECRET env) env w with
  | (_, inl _) => (w, inl InvalidOrExpiredEmailToken)
  | (_, inr payload) =>
      match findUserByEmail (claim_email payload) env w with
      | (_, inr (userInfo :: _)) =>
          (set_users (update_rows (id userInfo) (set_status Status.Active)
                                  (users w)) w,
           inr (successHandler "Email verified successfully" DataEmpty))
      | _ => (w, inl InvalidOrExpiredEmailToken)
      end
  end.
Proof.
  unfold verifyEmail, verifyEmailToken.
  destruct (jwt_verify_cases token (JWT_SECRET env) env w) as [[c E]|[e E]];
    rewrite E.
  - unfold try_catch.
    rewrite (bind_inr (bind ask _) _ env w w c)
      by (rewrite (bind_inr ask _ env w w env) by reflexivity; exact E).
    unfold findUserByEmail, userRepo_update. step_M.
    destruct (filter _ _); reflexivity.
  - unfold try_catch.
    rewrite (bind_inl (bind ask _) _ env w w e)
      by (rewrite (bind_inr ask _ env w w env) by reflexivity; exact E).
    reflexivity.
Qed.

(** [verifyEmail] for a token that verifies and whose email somebody has. *)
Lemma verifyEmail_ok env w token payload userInfo rest :
  jwt_verify token (JWT_SECRET env) env w = (w, inr payload) ->
  findUserByEmail (claim_email payload) env w = (w, inr (userInfo :: rest)) ->
  verifyEmail token env w
  = (set_users (update_rows (id userInfo) (set_status Status.Active)
                            (users w)) w,
     inr (successHandler "Email verified successfully" DataEmpty)).
Proof. intros V F. rewrite verifyEmail_run, V, F. reflexivity. Qed.


(** A token that verifies but whose email belongs to nobody: the
    [NotFoundException] thrown inside the [try] is replaced by the [catch]. *)
Lemma verifyEmail_unknown_email env w token payload :
  jwt_verify token (JWT_SECRET env) env w = (w, inr payload) ->
  findUserByEmail (claim_email payload) env w = (w, inr []) ->
  verifyEmail token env w = (w, inl InvalidOrExpiredEmailToken).
Proof.
  intros V F. rewrite verifyEmail_run, V, F. reflexivity.
Qed.

(** ** Refresh *)

Lemma refreshTokens_run env w token :
  refreshTokens token env w =
  (w, match jwt_decode token with
      | None => inl AccessDenied
      | Some c =>
          if refresh_expired (now env) c then inl AccessDenied
          else match find (fun u => where_property (claim_sub c) (id u))
                          (users w) with
               | None => inl AccessDenied
               | Some u => inr (session_response env u)
               end
      end).
Proof.
  unfold refreshTokens, userRepo_findOneBy_id, getTokens. step_M.
  destruct (jwt_decode token) as [c|]; [|reflexivity].
  destruct (refresh_expired (now env) c); [reflexivity|].
  destruct (find _ _); reflexivity.
Qed.

(** Every token that is not refused is accepted, whatever its tag: the
    method signs a new pair for the user the lookup by its subject finds. *)
Lemma refreshTokens_accepts env w token :
  ~ refresh_refused env w token ->
  exists c userInfo,
    jwt_decode token = Some c
    /\ userRepo_findOneBy_id (claim_sub c) env w = (w, inr (Some userInfo))
    /\ refreshTokens token env w = (w, inr (session_response env userInfo)).
Proof.
  intros N. rewrite refreshTokens_run.
  destruct token as [t|]; [|destruct N; constructor].
  destruct (jwt_decode (Some t)) as [c|] eqn:D;
    [|destruct N; now constructor].
  destruct (refresh_expired (now env) c) eqn:X;
    [destruct N; now apply (refused_expired _ _ t c)|].
  unfold userRepo_findOneBy_id; step_M.
  destruct (find _ _) as [u|] eqn:F.
  - exists c, u. repeat split. now rewrite F.
  - destruct N. apply (refused_unknown_subject _ _ t c D).
    unfold userRepo_findOneBy_id; step_M. now rewrite F.
Qed.

(** C1 (as amended).  A refresh token that is missing, does not decode, has
    an [exp] before the clock, or for whose subject the lookup finds no user
    makes [refreshTokens] fail, with the world unchanged and no token pair
    returned.  Every other token, whether or not its signature verifies and
    whether or not it names a subject, is answered with a new token pair for
    the user the lookup finds. *)
Theorem refreshTokens_refuses env w token :
  (refresh_refused env w token ->
   exists err, refreshTokens token env w = (w, inl err))
  /\ (~ refresh_refused env w token ->
      exists c userInfo,
        jwt_decode token = Some c
        /\ userRepo_findOneBy_id (claim_sub c) env w
           = (w, inr (Some userInfo))
        /\ refreshTokens token env w
           = (w, inr (session_response env userInfo))).
Proof.
  split; [|apply refreshTokens_accepts].
  intros R. rewrite refreshTokens_run.
  destruct R as [|t D|t c D X|t c D F].
  - cbn. eauto.
  - rewrite D. eauto.
  - rewrite D, X. eauto.
  - rewrite D. destruct (refresh_expired (now env) c); [eauto|].
    unfold userRepo_findOneBy_id in F; revert F; step_M; intros F.
    injection F as ->. eauto.
Qed.

(** ** Federated login *)

(** [googleLogin] for an email that has a user: no test of the status. *)
Lemma googleLogin_found env w dto req userInfo rest :
  findUserByEmail (Some (google_email dto)) env w
  = (w, inr (userInfo :: rest)) ->
  let logged := set_last_login (now env) userInfo in
  googleLogin dto req env w
  = (add_login_event
       (loginEventRepo_create env logged true "google" None req)
       (fst (userRepo_save logged env w)),
     inr (session_response env logged)).
Proof.
  intros found logged. unfold googleLogin.
  rewrite (bind_inr ask _ env w w env) by reflexivity.
  rewrite (bind_inr _ _ _ _ _ _ found).
  unfold userRepo_save. step_M. fold logged.
  destruct (existsb _ _); reflexivity.
Qed.

(** ** Password reset *)

Lemma where_string_true key column :
  where_string key column = true <->
  exists s, key = Some s /\ column = Some s.
Proof.
  destruct key as [k|], column as [c|]; cbn;
    try (split; [discriminate|intros (s & A & B); discriminate]).
  rewrite String.eqb_eq. split.
  - intros ->. eauto.
  - intros (s & A & B). congruence.
Qed.

Lemma where_property_true key column :
  where_property key column = true <->
  key = None \/ exists s, key = Some s /\ column = Some s.
Proof.
  destruct key as [k|]; cbn [where_property].
  - rewrite where_string_true. split.
    + intros H. now right.
    + intros [H|H]; [discriminate|exact H].
  - split; auto.
Qed.

Lemma Token_eqb_true a b : Token_eqb a b = true <-> a = b.
Proof.
  unfold Token_eqb. destruct (Token_eq_dec a b); split; congruence.
Qed.

Lemma where_token_true token column :
  where_token token column = true <-> column = Some token.
Proof.
  destruct column as [c|]; cbn.
  - rewrite Token_eqb_true. split; congruence.
  - split; discriminate.
Qed.

Lemma reset_where_true token key u :
  reset_where token key u = true <->
  reset_pass_token u = Some token /\ where_property key (id u) = true.
Proof.
  unfold reset_where. rewrite andb_true_iff, where_token_true. reflexivity.
Qed.

Lemma same_id_true key r :
  same_id key r = true <-> exists s, key = Some s /\ id r = Some s.
Proof. apply where_string_true. Qed.

(** Saving an entity that has the id of a row overwrites the rows of that
    id. *)
Lemma userRepo_save_existing env w u0 u :
  In u0 (users w) -> id u0 <> None -> id u = id u0 ->
  fst (userRepo_save u env w)
  = set_users (update_rows (id u0) (fun _ => u) (users w)) w.
Proof.
  intros I present E. unfold userRepo_save. step_M.
  replace (existsb (same_id (id u)) (users w)) with true.
  - rewrite E. reflexivity.
  - symmetry. apply existsb_exists. exists u0. split; [exact I|].
    apply same_id_true. rewrite E.
    destruct (id u0) as [s|]; [eauto|contradiction].
Qed.

(** What [resetPassword] does, in terms of the outcome of [jwt.verify] and of
    the lookup by stored token and subject. *)
Lemma resetPassword_run env w token newPassword :
  resetPassword token newPassword env w =
  match jwt_verify token (JWT_SECRET env) env w with
  | (_, inl _) => (w, inl InvalidOrExpiredToken)
  | (_, inr decoded) =>
      match find (reset_where token (claim_id decoded)) (users w) with
      | None => (w, inl InvalidOrExpiredToken)
      | Some user =>
          if expiry_passed (now env) (reset_pass_token_expiry user)
          then (w, inl InvalidOrExpiredToken)
          else (fst (userRepo_save (after_reset env newPassword user) env w),
                inr (successHandler "Password reset successful." DataEmpty))
      end
  end.
Proof.
  unfold resetPassword.
  rewrite (bind_inr ask _ env w w env) by reflexivity.
  destruct (jwt_verify_cases token (JWT_SECRET env) env w) as [[c E]|[e E]];
    rewrite E.
  - rewrite (bind_inr (try_catch _ _) _ env w w c)
      by (apply try_catch_inr; exact E).
    unfold userRepo_findOne_reset. step_M.
    destruct (find _ _) as [user|] eqn:F; [|reflexivity].
    destruct (expiry_passed _ _); [reflexivity|].
    fold (after_reset env newPassword user).
    destruct (userRepo_save (after_reset env newPassword user) env w)
      as [w1 [e|u]] eqn:S; [|reflexivity].
    exfalso. revert S. unfold userRepo_save. step_M.
    destruct (existsb _ _); discriminate.
  - rewrite (bind_inl (try_catch _ _) _ env w w InvalidOrExpiredToken)
      by (rewrite (try_catch_inl _ _ _ _ _ _ E); reflexivity).
    reflexivity.
Qed.

(** With a primary key, a row is determined by its id. *)
Lemma NoDup_map_inj {A B} (f : A -> B) (l : list A) a b :
  NoDup (map f l) -> In a l -> In b l -> f a = f b -> a = b.
Proof.
  induction l as [|x l IH]; cbn; [contradiction|].
  intros N Ia Ib E. inversion N as [|? ? Nx Nl]; subst.
  destruct Ia as [<-|Ia], Ib as [<-|Ib]; auto.
  - exfalso. apply Nx. rewrite E. now apply in_map.
  - exfalso. apply Nx. rewrite <- E. now apply in_map.
Qed.

Lemma find_unique {A B} (f : A -> B) (p : A -> bool) (l : list A) a :
  NoDup (map f l) ->
  (forall x y, p x = true -> p y = true -> f x = f y) ->
  In a l -> p a = true -> find p l = Some a.
Proof.
  intros N K I P. destruct (find p l) as [b|] eqn:F.
  - apply find_some in F. destruct F as [Ib Pb].
    f_equal. apply (NoDup_map_inj f l); auto.
  - rewrite (find_none _ _ F a I) in P. discriminate.
Qed.


(** The row the lookup returns is a row of the table on which the presented
    token is stored and whose id is the token's [id] claim if it has one. *)
Lemma matching_user_row w token decoded user :
  matching_user w token decoded user ->
  In user (users w)
  /\ reset_pass_token user = Some token
  /\ forall i, claim_id decoded = Some i -> id user = Some i.
Proof.
  intros F. apply find_some in F. destruct F as [I W].
  apply reset_where_true in W. destruct W as [T W].
  repeat split; auto. intros i E. rewrite E in W.
  cbn [where_property] in W. apply where_string_true in W. destruct W as (s & A & B). congruence.
Qed.

(** With ids a primary key and a token that carries an id, the matching
    record is the one row with that id, provided the token is stored on
    it. *)
Lemma matching_user_by_id w token decoded user i :
  NoDup (map id (users w)) ->
  claim_id decoded = Some i ->
  (matching_user w token decoded user
   <-> In user (users w) /\ id user = Some i
       /\ reset_pass_token user = Some token).
Proof.
  intros pk E. split.
  - intros M. destruct (matching_user_row _ _ _ _ M) as (I & T & K). auto.
  - intros (I & Ei & T). unfold matching_user.
    apply (find_unique id); auto.
    + intros x y Px Py. apply reset_where_true in Px, Py.
      destruct Px as [_ Px], Py as [_ Py]. rewrite E in Px, Py.
      cbn [where_property] in Px, Py. apply where_string_true in Px, Py.
      destruct Px as (s & K & ->), Py as (s' & K' & ->). congruence.
    + apply reset_where_true. split; [exact T|]. rewrite E, Ei. cbn.
      apply String.eqb_refl.
Qed.


Lemma find_all_false {A} (p : A -> bool) (l : list A) :
  (forall x, In x l -> p x = false) -> find p l = None.
Proof.
  induction l as [|x l IH]; cbn; [reflexivity|]. intros H.
  rewrite (H x) by auto. apply IH. auto.
Qed.

Lemma in_update_rows key f us r :
  In r (update_rows key f us) ->
  exists r0, In r0 us
             /\ r = if same_id key r0 then f r0 else r0.
Proof.
  unfold update_rows. rewrite in_map_iff.
  intros (r0 & E & I). exists r0. auto.
Qed.

(** Every token [forgotPassword] signs for a stored user carries that
    user's id. *)
Lemma reset_token_for_carries_id env user i :
  id user = Some i -> carries_id (reset_token_for env user).
Proof.
  intros E. exists {| claim_sub := None; claim_role := None;
                      claim_email := None; claim_id := id user;
                      claim_iat := Some (now env / 1000);
                      claim_exp := Some (now env / 1000 + 3600) |}, i.
  split; [reflexivity|exact E].
Qed.

(** C9.  A successful [resetPassword] with a token that carries an id
    leaves every record with the token's subject as id (there is one) with
    the stored reset token and the stored expiry cleared, so presenting the
    same token again, at any time and with any new password, fails with
    "Invalid or expired token.". *)
Theorem resetPassword_single_use env w token newPassword w' r :
  carries_id token ->
  resetPassword token newPassword env w = (w', inr r) ->
  (exists decoded,
      jwt_decode (Some token) = Some decoded
      /\ (exists user, In user (users w')
                       /\ where_string (claim_id decoded) (id user) = true)
      /\ (forall user,
             In user (users w') ->
             where_string (claim_id decoded) (id user) = true ->
             reset_pass_token user = None
             /\ reset_pass_token_expiry user = None))
  /\ (forall env' newPassword',
         resetPassword token newPassword' env' w'
         = (w', inl InvalidOrExpiredToken)).
Proof.
  intros (c0 & i & D0 & Ki).
  rewrite resetPassword_run.
  destruct (jwt_verify_cases token (JWT_SECRET env) env w) as [[c E]|[e E]];
    rewrite E; [|discriminate].
  destruct (find _ _) as [user|] eqn:F; [|discriminate].
  destruct (expiry_passed _ _); [discriminate|].
  apply jwt_verify_inr in E. destruct E as (_ & D & _).
  rewrite D0 in D. injection D as <-.
  destruct (matching_user_row w token c0 user F) as (I & _ & Ku).
  specialize (Ku i Ki).
  assert (present : id user <> None) by (rewrite Ku; discriminate).
  rewrite (userRepo_save_existing env w user
             (after_reset env newPassword user) I present eq_refl).
  intros H. injection H as <- _.
  assert (W : where_string (claim_id c0) (id user) = true).
  { rewrite Ki, Ku. cbn. apply String.eqb_refl. }
  (* every row with the subject's id is the cleared one *)
  assert (cleared : forall u,
             In u (update_rows (id user)
                     (fun _ => after_reset env newPassword user) (users w)) ->
             where_string (claim_id c0) (id u) = true ->
             u = after_reset env newPassword user).
  { intros u Iu Wu. apply in_update_rows in Iu.
    destruct Iu as (r0 & _ & ->).
    destruct (same_id (id user) r0) eqn:S; [reflexivity|].
    unfold same_id in S. rewrite Ku, <- Ki in S. congruence. }
  split.
  - exists c0. split; [exact D0|]. split.
    + exists (after_reset env newPassword user). split; [|exact W].
      cbn [users set_users]. unfold update_rows. apply in_map_iff.
      exists user. split; [|exact I].
      unfold same_id. rewrite Ku. cbn. now rewrite String.eqb_refl.
    + intros u Iu Wu. rewrite (cleared u Iu Wu). split; reflexivity.
  - intros env' newPassword'. rewrite resetPassword_run.
    destruct (jwt_verify_cases token (JWT_SECRET env') env'
                (set_users
                   (update_rows (id user)
                      (fun _ => after_reset env newPassword user) (users w))
                   w))
      as [[c' E']|[e' E']]; rewrite E'; [|reflexivity].
    apply jwt_verify_inr in E'. destruct E' as (_ & D' & _).
    rewrite D0 in D'. injection D' as <-.
    rewrite find_all_false; [reflexivity|].
    intros u Iu. cbn [users set_users] in Iu.
    destruct (reset_where token (claim_id c0) u) eqn:Rw; [|reflexivity].
    apply reset_where_true in Rw. destruct Rw as [T Wu].
    rewrite Ki in Wu. cbn [where_property] in Wu. rewrite <- Ki in Wu.
    rewrite (cleared u Iu Wu) in T. discriminate T.
Qed.

(** ** The service at work *)

Import Scenario.

(** The run of the specification's end-to-end example: sign-up stores Alice
    unverified; her login is answered softly; verifying her email activates
    her; her next login opens a session. *)
Example end_to_end :
  users (fst (signUp alice_dto Role.User (env_at t0 "u-1") (world_of [])))
  = [alice]
  /\ snd (login {| login_email := "a@x.com"; login_password := "P@ssw0rd" |}
                None (env_at t1 "u-2") (world_of [alice]))
     = inr (successHandler "Account not verified" (DataEmail "a@x.com"))
  /\ users (fst (verifyEmail alice_token0 (env_at t1 "u-2")
                             (world_of [alice])))
     = [alice_active]
  /\ login {| login_email := "a@x.com"; login_password := "P@ssw0rd" |}
           None (env_at t2 "u-2") (world_of [alice_active])
     = (add_login_event
          (loginEventRepo_create (env_at t2 "u-2")
             (set_last_login t2 alice_active) true "credentials" None None)
          (world_of [set_last_login t2 alice_active]),
        inr (session_response (env_at t2 "u-2")
               (set_last_login t2 alice_active))).
Proof. repeat split. Qed.

(** Each of the three conditions of a password reset matters on its own:
    with all three the reset goes through; a tag made with another key, a
    stored expiry that has passed, or another token on the record each make
    it fail and leave Alice's record alone. *)
Example resetPassword_each_condition_matters :
  resetPassword alice_reset_token "N3w-P@ss" (env_at t2 "u-2")
                (world_of [alice_forgot])
  = (world_of [after_reset (env_at t2 "u-2") "N3w-P@ss" alice_forgot],
     inr (successHandler "Password reset successful." DataEmpty))
  /\ (let forged := match alice_reset_token with
                    | Jws c _ => Jws c {| mac_key := "guess"; mac_msg := c |}
                    | Raw s => Raw s
                    end in
      resetPassword forged "N3w-P@ss" (env_at t2 "u-2")
                    (world_of [set_reset (Some forged)
                                         (Some (t1 + 60 * 60 * 1000))
                                         alice_active])
      = (world_of [set_reset (Some forged) (Some (t1 + 60 * 60 * 1000))
                             alice_active],
         inl InvalidOrExpiredToken))
  /\ resetPassword alice_reset_token "N3w-P@ss" (env_at t2 "u-2")
                   (world_of [set_reset (Some alice_reset_token)
                                        (Some (t2 - 1)) alice_active])
     = (world_of [set_reset (Some alice_reset_token) (Some (t2 - 1))
                            alice_active],
        inl InvalidOrExpiredToken)
  /\ resetPassword alice_reset_token "N3w-P@ss" (env_at t2 "u-2")
                   (world_of [set_reset (Some alice_token0)
                                        (Some (t1 + 60 * 60 * 1000))
                                        alice_active])
     = (world_of [set_reset (Some alice_token0) (Some (t1 + 60 * 60 * 1000))
                            alice_active],
        inl InvalidOrExpiredToken).
Proof. repeat split. Qed.

(** *** C1 *)

Lemma refreshTokens_refuses_witness :
  refresh_refused (env_at t8d "u-2") (world_of [alice_active])
                  (Some alice_refresh)
  /\ exists err,
       refreshTokens (Some alice_refresh) (env_at t8d "u-2")
                     (world_of [alice_active])
       = (world_of [alice_active], inl err).
Proof.
  assert (R : refresh_refused (env_at t8d "u-2") (world_of [alice_active])
                              (Some alice_refresh)).
  { eapply refused_expired; reflexivity. }
  split; [exact R|].
  exact (proj1 (refreshTokens_refuses _ _ _) R).
Defined.

(** C1 (counterexample).  Eight days after it was issued, Alice's refresh
    token is refused, but the exception the caller gets is a
    [BadRequestException] (status 400), not a [ForbiddenException]; and the
    same token with an edited payload, whose tag does not verify, is
    accepted and answered with a new token pair. *)
Lemma refreshTokens_tampered_accepted_expired_not_forbidden :
  signature_verifies "refresh-secret" alice_refresh = true
  /\ refreshTokens (Some alice_refresh) (env_at t8d "u-2")
                   (world_of [alice_active])
     = (world_of [alice_active],
        inl (BadRequestException_of (ForbiddenException "Access Denied")))
  /\ getStatus (BadRequestException_of (ForbiddenException "Access Denied"))
     = 400
  /\ signature_verifies "refresh-secret" alice_refresh_tampered = false
  /\ refreshTokens (Some alice_refresh_tampered) (env_at t8d "u-2")
                   (world_of [alice_active])
     = (world_of [alice_active],
        inr (session_response (env_at t8d "u-2") alice_active))
  /\ issues_tokens (session_response (env_at t8d "u-2") alice_active).
Proof.
  repeat split. apply session_response_issues_tokens.
Qed.

(** A token without a subject: the verification token of Alice's sign-up
    decodes, has an [exp] a day ahead and no [sub]; the lookup by an id
    that is [undefined] returns the first user, and [refreshTokens] answers
    with a token pair for her. *)
Example refreshTokens_without_subject :
  jwt_decode (Some alice_token0)
  = Some {| claim_sub := None; claim_role := None;
            claim_email := Some "a@x.com"; claim_id := None;
            claim_iat := Some (t0 / 1000);
            claim_exp := Some (t0 / 1000 + 86400) |}
  /\ refreshTokens (Some alice_token0) (env_at t1 "u-2")
                   (world_of [alice_active; carol])
     = (world_of [alice_active; carol],
        inr (session_response (env_at t1 "u-2") alice_active)).
Proof. repeat split. Qed.

(** *** C2 *)

(** C2 (the code at the failing input).  Alice is [Inactive]; a federated
    login with her email records a successful login event and returns a
    token pair for her.  (On the credentials path [login_inactive] holds.) *)
Theorem googleLogin_issues_tokens_to_inactive_user :
  status alice_inactive = Some Status.Inactive
  /\ findUserByEmail (Some "a@x.com") (env_at t2 "u-2")
                     (world_of [alice_inactive])
     = (world_of [alice_inactive], inr [alice_inactive])
  /\ googleLogin {| google_email := "a@x.com" |} None (env_at t2 "u-2")
                 (world_of [alice_inactive])
     = (add_login_event
          (loginEventRepo_create (env_at t2 "u-2")
             (set_last_login t2 alice_inactive) true "google" None None)
          (world_of [set_last_login t2 alice_inactive]),
        inr (session_response (env_at t2 "u-2")
               (set_last_login t2 alice_inactive)))
  /\ issues_tokens (session_response (env_at t2 "u-2")
                      (set_last_login t2 alice_inactive)).
Proof.
  repeat split. apply session_response_issues_tokens.
Qed.

(** *** C3 *)



(** *** C4 *)



(** *** C5 *)

(** C5 (the code at the failing input).  Carol's account is [Active] and
    has no password hash: it was created by [googleLogin] and verified by
    mail.  A credentials login with her email finds her record, and
    [bcrypt.compare] rejects the hash that is [null] before any line that
    records a login event: the call throws that error and the ledger is as
    it was, with no record of the attempt. *)
Theorem login_of_passwordless_user_records_nothing :
  users carol_world = [carol]
  /\ status carol = Some Status.Active
  /\ password carol = None
  /\ findUserByEmail (Some "c@x.com") (env_at t8d "u-7") carol_world
     = (carol_world, inr [carol])
  /\ login {| login_email := "c@x.com"; login_password := "anything" |}
           None (env_at t8d "u-7") carol_world
     = (carol_world, inl (Error "Illegal arguments: string, object"))
  /\ login_events
       (fst (login {| login_email := "c@x.com"; login_password := "anything" |}
                   None (env_at t8d "u-7") carol_world))
     = login_events carol_world.
Proof. repeat split. Qed.

(** *** C6 *)

(** C6 (the code at the failing input).  A verification token that verifies
    but whose email nobody registered: the [NotFoundException] thrown in
    the body is caught, and the caller gets the same [BadRequestException]
    (status 400) as for a token that does not verify. *)
Theorem verifyEmail_unknown_email_is_reported_as_invalid_token :
  (exists payload,
      jwt_verify ghost_token "jwt-secret" (env_at t2 "u-2") (world_of [alice])
      = (world_of [alice], inr payload)
      /\ claim_email payload = Some "ghost@x.com")
  /\ findUserByEmail (Some "ghost@x.com") (env_at t2 "u-2") (world_of [alice])
     = (world_of [alice], inr [])
  /\ verifyEmail ghost_token (env_at t2 "u-2") (world_of [alice])
     = (world_of [alice],
        inl (BadRequestException
               "Invalid or expired email verification token."))
  /\ verifyEmail (Raw "garbage") (env_at t2 "u-2") (world_of [alice])
     = verifyEmail ghost_token (env_at t2 "u-2") (world_of [alice]).
Proof.
  split; [eexists; split; reflexivity|]. repeat split.
Qed.

(** *** C7 *)

Lemma signUp_returns_unverified_user_without_password_witness :
  exists w' u token,
    signUp alice_dto Role.User (env_at t0 "u-1") (world_of [])
    = (w', inr (successHandler "User created successfully" (DataUser u)))
    /\ email u = signup_email alice_dto
    /\ status u = Some Status.Unverified
    /\ email_verification_token u = Some token
    /\ jwt_decode (Some token)
       = Some {| claim_sub := None; claim_role := None;
                 claim_email := Some (signup_email alice_dto);
                 claim_id := None;
                 claim_iat := Some (now (env_at t0 "u-1") / 1000);
                 claim_exp := Some (now (env_at t0 "u-1") / 1000 + 86400) |}
    /\ password u = None.
Proof.
  exact (proj1 (signUp_returns_unverified_user_without_password
                  (env_at t0 "u-1") (world_of []) alice_dto Role.User
                  eq_refl eq_refl)).
Defined.

(** *** C8 *)


(** *** C9 *)

Lemma resetPassword_single_use_witness :
  resetPassword alice_reset_token "N3w-P@ss" (env_at t2 "u-2")
                (world_of [alice_forgot])
  = (world_of [after_reset (env_at t2 "u-2") "N3w-P@ss" alice_forgot],
     inr (successHandler "Password reset successful." DataEmpty))
  /\ resetPassword alice_reset_token "An0ther" (env_at (t2 + 1000) "u-3")
                   (world_of [after_reset (env_at t2 "u-2") "N3w-P@ss"
                                          alice_forgot])
     = (world_of [after_reset (env_at t2 "u-2") "N3w-P@ss" alice_forgot],
        inl InvalidOrExpiredToken).
Proof.
  split; [reflexivity|].
  exact (proj2 (resetPassword_single_use
                  (env_at t2 "u-2") (world_of [alice_forgot])
                  alice_reset_token "N3w-P@ss"
                  (world_of [after_reset (env_at t2 "u-2") "N3w-P@ss"
                                         alice_forgot])
                  (successHandler "Password reset successful." DataEmpty)
                  (ex_intro _ _ (ex_intro _ "u-1" (conj eq_refl eq_refl)))
                  eq_refl)
               (env_at (t2 + 1000) "u-3") "An0ther").
Defined.

(** *** C10 *)

Lemma signUp_mail_failure_aborts_contact_failure_swallowed_witness :
  signUp alice_dto Role.User (env_with (Some "SMTP timeout") None t0 "u-1")
         (world_of [])
  = (world_of [], inl (Error "SMTP timeout"))
  /\ exists created,
       snd (signUp alice_dto Role.User
                   (env_with None (Some "GHL 502") t0 "u-1") (world_of []))
       = inr (successHandler "User created successfully"
                (DataUser (delete_password created)))
       /\ users (fst (signUp alice_dto Role.User
                             (env_with None (Some "GHL 502") t0 "u-1")
                             (world_of [])))
          = (users (world_of []) ++ [created])%list
       /\ email created = signup_email alice_dto
       /\ contacts (fst (signUp alice_dto Role.User
                                (env_with None (Some "GHL 502") t0 "u-1")
                                (world_of [])))
          = contacts (world_of []).
Proof.
  split.
  - exact (proj1 (signUp_mail_failure_aborts_contact_failure_swallowed
                    (env_with (Some "SMTP timeout") None t0 "u-1")
                    (world_of []) alice_dto Role.User eq_refl)
                 "SMTP timeout" eq_refl).
  - exact (proj2 (signUp_mail_failure_aborts_contact_failure_swallowed
                    (env_with None (Some "GHL 502") t0 "u-1")
                    (world_of []) alice_dto Role.User eq_refl)
                 "GHL 502" eq_refl eq_refl).
Defined.

(** * Further properties *)

(** ** The remaining paths of the methods *)

(** [signUp] for an email somebody has. *)
Lemma signUp_taken env w dto r u rest :
  findUserByEmail (Some (signup_email dto)) env w = (w, inr (u :: rest)) ->
  signUp dto r env w
  = (w, inl (BadRequestException "User with this email already exists")).
Proof.
  intros taken. unfold signUp.
  rewrite (bind_inr ask _ env w w env) by reflexivity.
  rewrite (bind_inr _ _ _ _ _ _ taken). reflexivity.
Qed.

(** [login] for an email nobody has. *)
Lemma login_unknown env w loginInfo req :
  findUserByEmail (Some (login_email loginInfo)) env w = (w, inr []) ->
  login loginInfo req env w
  = (w, inl (NotFoundException "User with this email does not exist")).
Proof.
  intros unknown. unfold login.
  rewrite (bind_inr ask _ env w w env) by reflexivity.
  rewrite (bind_inr _ _ _ _ _ _ unknown). reflexivity.
Qed.

(** What [resendVerificationEmail] does. *)
Lemma resendVerificationEmail_run env w e :
  resendVerificationEmail e env w =
  match filter (fun u => where_string (Some e) (Some (email u))) (users w) with
  | [] => (w, inl (NotFoundException "User with this email does not exist"))
  | userInfo :: _ =>
      if status_is Status.Active userInfo
      then (w, inl (BadRequestException "Account already verified"))
      else match sendVerificationEmail_fault env with
           | Some msg => (w, inl (Error msg))
           | None =>
               ({| users := update_rows (id userInfo)
                              (set_email_verification_token
                                 (email_token_for env e)) (users w);
                   login_events := login_events w;
                   outbox := outbox w ++
                             [VerificationEmail e (email_token_for env e)];
                   contacts := contacts w |},
                inr (successHandler "Verification email sent successfully"
                       DataEmpty))
           end
  end.
Proof.
  unfold resendVerificationEmail, findUserByEmail. step_M.
  destruct (filter _ _) as [|userInfo rest]; [reflexivity|].
  destruct (status_is Status.Active userInfo); [reflexivity|].
  unfold generateEmailToken, sendVerificationEmail, deliver, userRepo_update.
  step_M. destruct (sendVerificationEmail_fault env); reflexivity.
Qed.

(** What [forgotPassword] does: the row is written before the mail is
    handed over. *)
Lemma forgotPassword_run env w e :
  forgotPassword e env w =
  match find (fun u => where_string (Some e) (Some (email u))) (users w) with
  | None => (w, inl (NotFoundException "User not found."))
  | Some user =>
      let marked := set_reset (Some (reset_token_for env user))
                              (Some (now env + 60 * 60 * 1000)) user in
      let saved := fst (userRepo_save marked env w) in
      match sendPasswordResetEmail_fault env with
      | Some msg => (saved, inl (Error msg))
      | None =>
          ({| users := users saved;
              login_events := login_events saved;
              outbox := outbox saved ++
                        [PasswordResetEmail e (reset_token_for env user)];
              contacts := contacts saved |},
           inr (successHandler "Password reset link sent to your email."
                  DataEmpty))
      end
  end.
Proof.
  unfold forgotPassword, userRepo_findOne_email. step_M.
  destruct (find _ _) as [user|]; [|reflexivity].
  unfold userRepo_save, sendPasswordResetEmail, deliver. step_M.
  cbn [id set_reset].
  destruct (existsb _ _); destruct (sendPasswordResetEmail_fault env);
    reflexivity.
Qed.

(** [googleLogin] for an email nobody has: the row is inserted, then
    written again with the login time. *)
Lemma googleLogin_unknown env w dto req :
  findUserByEmail (Some (google_email dto)) env w = (w, inr []) ->
  let created := with_generated (uuid env) (googleLogin_entity dto) in
  let logged := set_last_login (now env) created in
  googleLogin dto req env w
  = (add_login_event
       (loginEventRepo_create env logged true "google" None req)
       (set_users (update_rows (Some (uuid env)) (fun _ => logged)
                               (users w ++ [created])) w),
     inr (session_response env logged)).
Proof.
  intros unknown created logged. unfold googleLogin.
  rewrite (bind_inr ask _ env w w env) by reflexivity.
  rewrite (bind_inr _ _ _ _ _ _ unknown).
  unfold userRepo_save. step_M.
  cbn [id users set_users]. rewrite existsb_same_id_None.
  cbn [users set_users set_last_login id with_generated].
  fold (googleLogin_entity dto). fold created. fold logged.
  replace (existsb (same_id (Some (uuid env))) (users w ++ [created]))
    with true.
  - reflexivity.
  - symmetry. apply existsb_exists. exists created. split.
    + apply in_or_app. right. left. reflexivity.
    + unfold same_id. cbn. apply String.eqb_refl.
Qed.

(** ** The user table *)

Lemma update_rows_columns {A} (col : User -> A) key f us :
  (forall r, In r us -> same_id key r = true -> col (f r) = col r) ->
  map col (update_rows key f us) = map col us.
Proof.
  intros H. unfold update_rows. rewrite map_map. apply map_ext_in.
  intros r I. destruct (same_id key r) eqn:S; auto.
Qed.

Lemma update_rows_none key f us :
  (forall r, In r us -> same_id key r = false) ->
  update_rows key f us = us.
Proof.
  intros H. unfold update_rows. rewrite <- (map_id us) at 2.
  apply map_ext_in. intros r I. now rewrite (H r I).
Qed.

Lemma update_rows_app key f us vs :
  update_rows key f (us ++ vs)
  = (update_rows key f us ++ update_rows key f vs)%list.
Proof. apply map_app. Qed.

Lemma table_ok_columns us us' :
  map id us' = map id us -> map email us' = map email us ->
  table_ok us -> table_ok us'.
Proof. unfold table_ok. intros -> ->. auto. Qed.

(** With a primary key, the rows a write-back replaces are the row that
    was read. *)
Lemma write_back_columns us u0 u :
  NoDup (map id us) -> In u0 us -> id u = id u0 -> email u = email u0 ->
  map id (update_rows (id u0) (fun _ => u) us) = map id us
  /\ map email (update_rows (id u0) (fun _ => u) us) = map email us.
Proof.
  intros pk I Ei Ee.
  assert (K : forall r, In r us -> same_id (id u0) r = true -> r = u0).
  { intros r Ir S. apply same_id_true in S. destruct S as (s & A & B).
    apply (NoDup_map_inj id us); auto. congruence. }
  split; apply update_rows_columns; intros r Ir S;
    rewrite (K r Ir S); assumption.
Qed.

Lemma users_step_columns env us us' :
  NoDup (map id us) ->
  users_step env us us' ->
  exists new,
    map id us' = (map id us ++ map id new)%list
    /\ map email us' = (map email us ++ map email new)%list
    /\ (length new <= 1)%nat
    /\ (forall u, In u new ->
          id u = Some (uuid env)
          /\ forall r, In r us -> email r <> email u).
Proof.
  intros pk [|u0 u I Ei Ee|key f K|u Ei Ee].
  - exists []. cbn. rewrite !app_nil_r. repeat split; auto. contradiction.
  - destruct (write_back_columns us u0 u pk I Ei Ee) as [-> ->].
    exists []. cbn. rewrite !app_nil_r. repeat split; auto. contradiction.
  - exists []. cbn. rewrite !app_nil_r.
    rewrite !update_rows_columns by (intros; apply K).
    repeat split; auto. contradiction.
  - exists [u]. rewrite !map_app. cbn. repeat split; auto.
    + destruct H as [<-|[]]. exact Ei.
    + destruct H as [<-|[]]. exact Ee.
Qed.

Lemma users_step_table_ok env us us' :
  table_ok us -> ~ In (Some (uuid env)) (map id us) ->
  users_step env us us' -> table_ok us'.
Proof.
  intros (pk & present & mails) fresh step.
  destruct (users_step_columns env us us' pk step)
    as (new & Ei & Ee & L & N).
  unfold table_ok. rewrite Ei, Ee.
  destruct new as [|u [|v new]]; cbn in *; [| |lia].
  - rewrite !app_nil_r. auto.
  - destruct (N u (or_introl eq_refl)) as [Iu Eu]. rewrite Iu.
    repeat split.
    + apply NoDup_app; repeat split; auto.
      * constructor; [intros []|constructor].
      * intros a Ia [<-|[]]. contradiction.
    + intros I. apply in_app_or in I. destruct I as [I|[I|[]]];
        [contradiction|discriminate].
    + apply NoDup_app; repeat split; auto.
      * constructor; [intros []|constructor].
      * intros a Ia [<-|[]]. apply in_map_iff in Ia.
        destruct Ia as (r & E & Ir). exact (Eu r Ir E).
Qed.

Lemma filter_email_nil e us :
  filter (fun u => where_string (Some e) (Some (email u))) us = [] ->
  forall r, In r us -> email r <> e.
Proof.
  intros F r I E.
  assert (X : In r (filter (fun u => where_string (Some e) (Some (email u)))
                           us)).
  { apply filter_In. split; [exact I|]. cbn. rewrite E.
    apply String.eqb_refl. }
  rewrite F in X. exact X.
Qed.

Lemma filter_email_head key us u rest :
  filter (fun u => where_string key (Some (email u))) us = u :: rest ->
  In u us /\ key = Some (email u).
Proof.
  intros F.
  assert (X : In u (filter (fun u => where_string key (Some (email u))) us))
    by (rewrite F; left; reflexivity).
  apply filter_In in X. destruct X as [I W]. split; [exact I|].
  apply where_string_true in W. destruct W as (s & -> & E). congruence.
Qed.

Lemma find_email_some e us u :
  find (fun u => where_string (Some e) (Some (email u))) us = Some u ->
  In u us /\ email u = e.
Proof.
  intros F. apply find_some in F. destruct F as [I W]. split; [exact I|].
  apply where_string_true in W. destruct W as (s & A & B). congruence.
Qed.

Lemma present_id us u : ~ In None (map id us) -> In u us -> id u <> None.
Proof. intros P I E. apply P. rewrite <- E. now apply in_map. Qed.

(** How each method changes the user table. *)
Lemma run_users_step c env w :
  store_ok w -> fresh_id env w ->
  users_step env (users w) (users (fst (run c env w))).
Proof.
  intros (pk & present & mails) fresh.
  destruct c as [dto r|e|token|loginInfo req|token|dto req|e|token pw];
    cbn [run].
  - (* signUp *)
    destruct (filter (fun u => where_string (Some (signup_email dto))
                                            (Some (email u))) (users w))
      as [|u rest] eqn:F.
    + rewrite (signUp_fresh env w dto r)
        by (rewrite findUserByEmail_run, F; reflexivity).
      destruct (sendVerificationEmail_fault env); [constructor|].
      cbn [fst users]. apply step_insert; [reflexivity|].
      exact (filter_email_nil _ _ F).
    + rewrite (signUp_taken env w dto r u rest)
        by (rewrite findUserByEmail_run, F; reflexivity).
      constructor.
  - (* resendVerificationEmail *)
    rewrite resendVerificationEmail_run.
    destruct (filter _ _) as [|userInfo rest]; [constructor|].
    destruct (status_is _ _); [constructor|].
    destruct (sendVerificationEmail_fault env); [constructor|].
    cbn [fst users]. apply step_edit. intros r0. split; reflexivity.
  - (* verifyEmail *)
    rewrite verifyEmail_run.
    destruct (jwt_verify token (JWT_SECRET env) env w) as [w1 [e|c]];
      [constructor|].
    rewrite findUserByEmail_run.
    destruct (filter _ _) as [|userInfo rest]; [constructor|].
    cbn [fst users set_users]. apply step_edit. intros r0. split; reflexivity.
  - (* login *)
    destruct (filter (fun u => where_string (Some (login_email loginInfo))
                                            (Some (email u))) (users w))
      as [|u rest] eqn:F.
    + rewrite (login_unknown env w loginInfo req)
        by (rewrite findUserByEmail_run, F; reflexivity).
      constructor.
    + rewrite (login_found env w loginInfo req u rest)
        by (rewrite findUserByEmail_run, F; reflexivity).
      apply filter_email_head in F. destruct F as [I _].
      destruct (status_is Status.Inactive u); [constructor|].
      destruct (status_is Status.Unverified u); [constructor|].
      destruct (password u) as [hash|]; [|constructor].
      destruct (bcrypt_compare env _ _); [|constructor].
      cbn [fst users add_login_event].
      rewrite (userRepo_save_existing env w u)
        by (eauto using present_id).
      cbn [users set_users]. apply step_write_back; auto.
  - (* refreshTokens *)
    rewrite refreshTokens_run. constructor.
  - (* googleLogin *)
    destruct (filter (fun u => where_string (Some (google_email dto))
                                            (Some (email u))) (users w))
      as [|u rest] eqn:F.
    + rewrite (googleLogin_unknown env w dto req)
        by (rewrite findUserByEmail_run, F; reflexivity).
      cbn [fst users add_login_event set_users].
      rewrite update_rows_app, update_rows_none.
      * cbn. rewrite String.eqb_refl. apply step_insert; [reflexivity|].
        exact (filter_email_nil _ _ F).
      * intros r0 I. destruct (same_id (Some (uuid env)) r0) eqn:S;
          [|reflexivity].
        apply same_id_true in S. destruct S as (s & A & B).
        destruct fresh. rewrite A, <- B. now apply in_map.
    + rewrite (googleLogin_found env w dto req u rest)
        by (rewrite findUserByEmail_run, F; reflexivity).
      apply filter_email_head in F. destruct F as [I _].
      cbn [fst users add_login_event].
      rewrite (userRepo_save_existing env w u)
        by (eauto using present_id).
      cbn [users set_users]. apply step_write_back; auto.
  - (* forgotPassword *)
    rewrite forgotPassword_run.
    destruct (find _ _) as [user|] eqn:F; [|constructor].
    apply find_email_some in F. destruct F as [I _].
    cbv zeta.
    rewrite (userRepo_save_existing env w user)
      by (eauto using present_id).
    destruct (sendPasswordResetEmail_fault env);
      cbn [fst users set_users]; apply step_write_back; auto.
  - (* resetPassword *)
    rewrite resetPassword_run.
    destruct (jwt_verify token (JWT_SECRET env) env w) as [w1 [e|c]];
      [constructor|].
    destruct (find _ _) as [user|] eqn:F; [|constructor].
    destruct (expiry_passed _ _); [constructor|].
    apply find_some in F. destruct F as [I _].
    cbn [fst].
    rewrite (userRepo_save_existing env w user) by (eauto using present_id).
    cbn [users set_users]. apply step_write_back; auto.
Qed.

(** ** Invariants of the store *)

(** X1.  Every method keeps the user table well formed: if ids are a
    primary key that every row has and emails are unique, and the id the
    store generates next is not in use, the same holds after the call,
    whatever the call and whether it returns or throws. *)
Theorem run_keeps_store_ok c env w :
  store_ok w -> fresh_id env w -> store_ok (fst (run c env w)).
Proof.
  intros ok fresh. unfold store_ok.
  apply (users_step_table_ok env (users w)).
  - exact ok.
  - exact fresh.
  - apply run_users_step; assumption.
Qed.

(** X2.  No method deletes a user or changes the id or the email of one:
    after any call the id column and the email column of the table are the
    old columns, followed by at most one new row that carries the
    generated id and an email nobody had. *)
Theorem run_never_deletes_or_renames c env w :
  store_ok w -> fresh_id env w ->
  exists new,
    map id (users (fst (run c env w)))
    = (map id (users w) ++ map id new)%list
    /\ map email (users (fst (run c env w)))
       = (map email (users w) ++ map email new)%list
    /\ (length new <= 1)%nat
    /\ (forall u, In u new ->
          id u = Some (uuid env)
          /\ forall r, In r (users w) -> email r <> email u).
Proof.
  intros ok fresh.
  apply users_step_columns; [apply ok|].
  apply run_users_step; assumption.
Qed.

Lemma write_back_column {A} (col : User -> A) us u0 u :
  NoDup (map id us) -> In u0 us -> col u = col u0 ->
  map col (update_rows (id u0) (fun _ => u) us) = map col us.
Proof.
  intros pk I E. apply update_rows_columns. intros r Ir S.
  apply same_id_true in S. destruct S as (s & A1 & B).
  rewrite E. f_equal. apply (NoDup_map_inj id us); auto. congruence.
Qed.

Lemma googleLogin_run_events dto req env w :
  exists ev,
    login_events (fst (googleLogin dto req env w))
    = (login_events w ++ [ev])%list
    /\ loginMethod ev = "google" /\ successful ev = true
    /\ timestamp ev = now env.
Proof.
  destruct (filter (fun u => where_string (Some (google_email dto))
                                          (Some (email u))) (users w))
    as [|u rest] eqn:F.
  - rewrite (googleLogin_unknown env w dto req)
      by (rewrite findUserByEmail_run, F; reflexivity).
    eexists. repeat split.
  - rewrite (googleLogin_found env w dto req u rest)
      by (rewrite findUserByEmail_run, F; reflexivity).
    eexists. cbn [fst add_login_event login_events].
    rewrite userRepo_save_login_events. repeat split.
Qed.

(** X3.  The ledger of login events is append-only: a call leaves the
    records that were there as they were, in place, and adds at most one
    record after them; only [login] and [googleLogin] ever add one, stamped
    with the clock of the call and with their own method name. *)
Theorem run_ledger_append_only c env w :
  exists new,
    login_events (fst (run c env w)) = (login_events w ++ new)%list
    /\ (length new <= 1)%nat
    /\ forall ev, In ev new -> recorded_by c env ev.
Proof.
  assert (none : forall w', login_events w' = login_events w ->
            exists new,
              login_events w' = (login_events w ++ new)%list
              /\ (length new <= 1)%nat
              /\ forall ev, In ev new -> recorded_by c env ev).
  { intros w' E. exists []. rewrite app_nil_r.
    split; [exact E|]. split; [cbn; lia|]. intros ev []. }
  assert (one : forall ev w0,
             login_events w0 = login_events w ->
             recorded_by c env ev ->
             exists new,
               login_events (add_login_event ev w0)
               = (login_events w ++ new)%list
               /\ (length new <= 1)%nat
               /\ forall ev0, In ev0 new -> recorded_by c env ev0).
  { intros ev w0 E R. exists [ev]. cbn [add_login_event login_events].
    rewrite E. split; [reflexivity|]. split; [cbn; lia|].
    intros ev0 [<-|[]]. exact R. }
  destruct c as [dto r|e|token|loginInfo req|token|dto req|e|token pw];
    cbn [run].
  - destruct (filter (fun u => where_string (Some (signup_email dto))
                                            (Some (email u))) (users w))
      as [|u rest] eqn:F.
    + rewrite (signUp_fresh env w dto r)
        by (rewrite findUserByEmail_run, F; reflexivity).
      destruct (sendVerificationEmail_fault env); apply none; reflexivity.
    + rewrite (signUp_taken env w dto r u rest)
        by (rewrite findUserByEmail_run, F; reflexivity).
      apply none; reflexivity.
  - rewrite resendVerificationEmail_run.
    destruct (filter _ _) as [|userInfo rest]; [apply none; reflexivity|].
    destruct (status_is _ _); [apply none; reflexivity|].
    destruct (sendVerificationEmail_fault env); apply none; reflexivity.
  - rewrite verifyEmail_run.
    destruct (jwt_verify token (JWT_SECRET env) env w) as [w1 [e|c]];
      [apply none; reflexivity|].
    rewrite findUserByEmail_run.
    destruct (filter _ _); apply none; reflexivity.
  - assert (R : forall u ok reason,
               recorded_by (CallLogin loginInfo req) env
                 (loginEventRepo_create env u ok "credentials" reason req)).
    { intros u ok reason. split; [reflexivity|]. left. eauto. }
    destruct (filter (fun u => where_string (Some (login_email loginInfo))
                                            (Some (email u))) (users w))
      as [|u rest] eqn:F.
    + rewrite (login_unknown env w loginInfo req)
        by (rewrite findUserByEmail_run, F; reflexivity).
      apply none; reflexivity.
    + rewrite (login_found env w loginInfo req u rest)
        by (rewrite findUserByEmail_run, F; reflexivity).
      destruct (status_is Status.Inactive u); [apply one; auto|].
      destruct (status_is Status.Unverified u); [apply one; auto|].
      destruct (password u) as [hash|]; [|apply none; reflexivity].
      destruct (bcrypt_compare env _ _); [|apply one; auto].
      cbn [fst]. apply one; [|apply R].
      apply userRepo_save_login_events.
  - rewrite refreshTokens_run. apply none; reflexivity.
  - destruct (googleLogin_run_events dto req env w) as (ev & E & Me & S & T).
    exists [ev]. split; [exact E|]. split; [cbn; lia|].
    intros ev0 [<-|[]]. split; [exact T|]. right. eauto.
  - rewrite forgotPassword_run.
    destruct (find _ _) as [user|]; [|apply none; reflexivity].
    cbv zeta. destruct (sendPasswordResetEmail_fault env);
      apply none; cbn [fst login_events]; apply userRepo_save_login_events.
  - rewrite resetPassword_run.
    destruct (jwt_verify token (JWT_SECRET env) env w) as [w1 [e|c]];
      [apply none; reflexivity|].
    destruct (find _ _) as [user|]; [|apply none; reflexivity].
    destruct (expiry_passed _ _); [apply none; reflexivity|].
    apply none. cbn [fst]. apply userRepo_save_login_events.
Qed.

(** X4.  In a well-formed store a credentials login changes no user's
    email, password, role, status or tokens: the table after the call is
    the table before it up to [last_login], and unless the call returns a
    token pair the table is the same. *)
Theorem login_changes_only_last_login env w loginInfo req :
  store_ok w ->
  map forget_last_login (users (fst (login loginInfo req env w)))
  = map forget_last_login (users w)
  /\ ((forall r, snd (login loginInfo req env w) = inr r -> ~ issues_tokens r)
      -> users (fst (login loginInfo req env w)) = users w).
Proof.
  intros (pk & present & _).
  destruct (filter (fun u => where_string (Some (login_email loginInfo))
                                          (Some (email u))) (users w))
    as [|u rest] eqn:F.
  - rewrite (login_unknown env w loginInfo req)
      by (rewrite findUserByEmail_run, F; reflexivity).
    split; reflexivity.
  - rewrite (login_found env w loginInfo req u rest)
      by (rewrite findUserByEmail_run, F; reflexivity).
    apply filter_email_head in F. destruct F as [I _].
    destruct (status_is Status.Inactive u); [split; reflexivity|].
    destruct (status_is Status.Unverified u); [split; reflexivity|].
    destruct (password u) as [hash|]; [|split; reflexivity].
    destruct (bcrypt_compare env _ _); [|split; reflexivity].
    cbn [fst snd users add_login_event].
    rewrite (userRepo_save_existing env w u) by (eauto using present_id).
    cbn [users set_users]. split.
    + apply write_back_column; auto.
    + intros N. destruct (N _ eq_refl).
      apply session_response_issues_tokens.
Qed.

Lemma filter_email_last e us u :
  filter (fun u => where_string (Some e) (Some (email u))) us = [] ->
  email u = e ->
  filter (fun u => where_string (Some e) (Some (email u))) (us ++ [u]) = [u].
Proof.
  intros F E. rewrite filter_app, F. cbn. rewrite E, String.eqb_refl.
  reflexivity.
Qed.

(** X5.  After a sign-up that succeeded, every further sign-up with the
    same email fails with "User with this email already exists", whatever
    its other fields, its role and the time, and changes nothing. *)
Theorem signUp_twice_is_rejected env w dto r w' resp :
  signUp dto r env w = (w', inr resp) ->
  forall env' dto' r',
    signup_email dto' = signup_email dto ->
    signUp dto' r' env' w'
    = (w', inl (BadRequestException "User with this email already exists")).
Proof.
  intros first env' dto' r' same.
  destruct (filter (fun u => where_string (Some (signup_email dto))
                                          (Some (email u))) (users w))
    as [|u rest] eqn:F.
  - rewrite (signUp_fresh env w dto r) in first
      by (rewrite findUserByEmail_run, F; reflexivity).
    destruct (sendVerificationEmail_fault env); [discriminate|].
    injection first as <- _.
    eapply signUp_taken. rewrite findUserByEmail_run, same. cbn [users].
    rewrite (filter_email_last _ _ _ F) by reflexivity. reflexivity.
  - rewrite (signUp_taken env w dto r u rest) in first
      by (rewrite findUserByEmail_run, F; reflexivity).
    discriminate.
Qed.

(** ** Tokens *)

(** The claims of a token signed at clock [t] for [ttl] seconds. *)
Lemma jwt_decode_jwt_sign t payload secret ttl :
  jwt_decode (Some (jwt_sign t payload secret ttl))
  = Some {| claim_sub := claim_sub payload;
            claim_role := claim_role payload;
            claim_email := claim_email payload;
            claim_id := claim_id payload;
            claim_iat := Some (t / 1000);
            claim_exp := Some (t / 1000 + ttl) |}.
Proof. reflexivity. Qed.

Lemma signature_verifies_jwt_sign t payload secret ttl secret' :
  signature_verifies secret' (jwt_sign t payload secret ttl) = true
  <-> secret' = secret.
Proof.
  unfold jwt_sign, signature_verifies. rewrite Token_eqb_true. split.
  - intros E. injection E. auto.
  - intros ->. reflexivity.
Qed.

(** [jwt.verify] of a token of [jwt.sign]: accepted under the signing
    secret until the clock, in whole seconds, reaches [iat + ttl]. *)
Lemma jwt_verify_jwt_sign t payload secret ttl secret' env w :
  (exists c, jwt_verify (jwt_sign t payload secret ttl) secret' env w
             = (w, inr c))
  <-> secret' = secret /\ now env / 1000 < t / 1000 + ttl.
Proof.
  split.
  - intros (c & V). apply jwt_verify_inr in V. destruct V as (_ & D & S & X).
    apply signature_verifies_jwt_sign in S.
    rewrite jwt_decode_jwt_sign in D. injection D as <-.
    unfold jwt_expired in X. cbn in X. apply Z.leb_gt in X. auto.
  - intros (-> & L). eexists. apply jwt_verify_inr.
    split; [reflexivity|]. split; [apply jwt_decode_jwt_sign|].
    split; [now apply signature_verifies_jwt_sign|].
    unfold jwt_expired. cbn. now apply Z.leb_gt.
Qed.

(** X6.  Round trip of the email token: the token [generateEmailToken]
    signs for an email is accepted by [verifyEmailToken] exactly when the
    verifying process has the same [JWT_SECRET] and its clock, in whole
    seconds, is less than a day (86400 s) past the second of signing; the
    claims it then returns carry that email. *)
Theorem email_token_round_trip e env w0 token env' w :
  generateEmailToken e env w0 = (w0, inr token) ->
  ((exists c, verifyEmailToken token env' w = (w, inr c))
   <-> JWT_SECRET env' = JWT_SECRET env
       /\ now env' / 1000 < now env / 1000 + 86400)
  /\ (forall w' c, verifyEmailToken token env' w = (w', inr c) ->
        claim_email c = Some e).
Proof.
  intros G. injection G as <-. split.
  - apply jwt_verify_jwt_sign.
  - intros w' c V. apply jwt_verify_inr in V. destruct V as (_ & D & _).
    rewrite jwt_decode_jwt_sign in D. injection D as <-. reflexivity.
Qed.

(** ** Flows *)

Lemma filter_email_update_rows keyE key f us :
  (forall r, email (f r) = email r) ->
  filter (fun u => where_string keyE (Some (email u))) (update_rows key f us)
  = update_rows key f
      (filter (fun u => where_string keyE (Some (email u))) us).
Proof.
  intros K. unfold update_rows.
  induction us as [|r us IH]; [reflexivity|].
  cbn [map filter].
  replace (email (if same_id key r then f r else r)) with (email r)
    by (destruct (same_id key r); [symmetry; apply K|reflexivity]).
  destruct (where_string keyE (Some (email r))); cbn [map]; rewrite IH;
    reflexivity.
Qed.

(** X7.  From sign-up to the first session.  After a sign-up that
    succeeded, the verification mail is in the outbox; presenting its
    token to [verifyEmail] within the day, under the same secret, succeeds;
    and from then on a credentials login with the sign-up password, which
    the hasher accepts against the hash it made, returns a token pair for
    the new user. *)
Theorem signUp_verifyEmail_login env0 w0 dto r w1 resp env1 :
  signUp dto r env0 w0 = (w1, inr resp) ->
  JWT_SECRET env1 = JWT_SECRET env0 ->
  now env1 / 1000 < now env0 / 1000 + 86400 ->
  let token := email_token_for env0 (signup_email dto) in
  In (VerificationEmail (signup_email dto) token) (outbox w1)
  /\ exists w2,
       verifyEmail token env1 w1
       = (w2, inr (successHandler "Email verified successfully" DataEmpty))
       /\ forall env2 req,
            bcrypt_compare env2 (signup_password dto)
              (hashPassword env0 (signup_password dto)) = true ->
            exists w3 u,
              login {| login_email := signup_email dto;
                       login_password := signup_password dto |} req env2 w2
              = (w3, inr (session_response env2 u))
              /\ email u = signup_email dto
              /\ id u = Some (uuid env0)
              /\ status u = Some Status.Active.
Proof.
  intros first secret intime token.
  destruct (filter (fun u => where_string (Some (signup_email dto))
                                          (Some (email u))) (users w0))
    as [|u0 rest] eqn:F.
  2: { rewrite (signUp_taken env0 w0 dto r u0 rest) in first
         by (rewrite findUserByEmail_run, F; reflexivity).
       discriminate. }
  rewrite (signUp_fresh env0 w0 dto r) in first
    by (rewrite findUserByEmail_run, F; reflexivity).
  destruct (sendVerificationEmail_fault env0); [discriminate|].
  injection first as W _.
  set (created := with_generated (uuid env0) (signUp_entity env0 dto r)) in *.
  assert (U : users w1 = (users w0 ++ [created])%list) by (now subst w1).
  assert (O : In (VerificationEmail (signup_email dto) token) (outbox w1)).
  { subst w1. cbn [outbox]. apply in_or_app. right. left. reflexivity. }
  clear W. split; [exact O|].
  destruct (proj2 (jwt_verify_jwt_sign (now env0)
                     {| claim_sub := None; claim_role := None;
                        claim_email := Some (signup_email dto);
                        claim_id := None; claim_iat := None;
                        claim_exp := None |}
                     (JWT_SECRET env0) 86400 (JWT_SECRET env1) env1 w1)
                  (conj secret intime)) as (c & V).
  fold (email_token_for env0 (signup_email dto)) in V. fold token in V.
  assert (Ec : claim_email c = Some (signup_email dto)).
  { apply jwt_verify_inr in V. destruct V as (_ & D & _).
    unfold token, email_token_for in D.
    rewrite jwt_decode_jwt_sign in D. injection D as <-. reflexivity. }
  eexists. split.
  - apply (verifyEmail_ok _ _ _ c created []); [exact V|].
    rewrite findUserByEmail_run, Ec, U.
    rewrite (filter_email_last _ _ _ F) by reflexivity. reflexivity.
  - intros env2 req hash.
    set (active := set_status Status.Active created).
    assert (Fa : findUserByEmail (Some (signup_email dto)) env2
                   (set_users
                      (update_rows (id created) (set_status Status.Active)
                                   (users w1)) w1)
                 = (set_users
                      (update_rows (id created) (set_status Status.Active)
                                   (users w1)) w1, inr [active])).
    { rewrite findUserByEmail_run. cbn [users set_users]. f_equal. f_equal.
      rewrite filter_email_update_rows by reflexivity.
      rewrite U, (filter_email_last _ _ _ F) by reflexivity.
      cbn. rewrite String.eqb_refl. reflexivity. }
    rewrite (login_found _ _ {| login_email := signup_email dto;
                                login_password := signup_password dto |}
                         req active [] Fa).
    cbn [status_is status active set_status Status.eqb login_password
         password created with_generated signUp_entity].
    rewrite hash. do 2 eexists. split; [reflexivity|]. repeat split.
Qed.

Lemma update_rows_idempotent key f us :
  (forall r, id (f r) = id r) -> (forall r, f (f r) = f r) ->
  update_rows key f (update_rows key f us) = update_rows key f us.
Proof.
  intros Ki Kf. unfold update_rows. rewrite map_map. apply map_ext.
  intros r. destruct (same_id key r) eqn:S.
  - unfold same_id in *. rewrite Ki, S. apply Kf.
  - now rewrite S.
Qed.

Lemma update_rows_head_id key f r rest us :
  (forall r, id (f r) = id r) ->
  update_rows key f us = r :: rest ->
  exists r0 rest0, us = r0 :: rest0 /\ id r = id r0.
Proof.
  intros Ki. destruct us as [|r0 rest0]; [discriminate|].
  cbn. intros E. injection E as <- _. exists r0, rest0.
  split; [reflexivity|]. destruct (same_id key r0); [apply Ki|reflexivity].
Qed.

(** X8.  [verifyEmail] does not consume its token: once a token has been
    accepted, it is accepted again for as long as it verifies, and
    presenting it again changes nothing more. *)
Theorem verifyEmail_token_is_reusable env w token w' r env' c :
  verifyEmail token env w = (w', inr r) ->
  jwt_verify token (JWT_SECRET env') env' w' = (w', inr c) ->
  verifyEmail token env' w' = (w', inr r).
Proof.
  rewrite verifyEmail_run.
  destruct (jwt_verify_cases token (JWT_SECRET env) env w) as [[c0 E]|[e E]];
    rewrite E; [|discriminate].
  rewrite findUserByEmail_run.
  destruct (filter _ _) as [|userInfo rest] eqn:F; [discriminate|].
  intros H V. injection H as <- <-.
  assert (c = c0).
  { apply jwt_verify_inr in E, V.
    destruct E as (_ & D & _), V as (_ & D' & _). congruence. }
  subst c0.
  rewrite verifyEmail_run, V, findUserByEmail_run. cbn [users set_users].
  rewrite filter_email_update_rows, F by reflexivity.
  cbn [update_rows map].
  replace (id (if same_id (id userInfo) userInfo
               then set_status Status.Active userInfo else userInfo))
    with (id userInfo) by (destruct (same_id _ _); reflexivity).
  fold (update_rows (id userInfo) (set_status Status.Active) (users w)).
  rewrite update_rows_idempotent by reflexivity.
  reflexivity.
Qed.

(** X9.  [Inactive] is not terminal.  For a user whose account is
    [Inactive], [resendVerificationEmail] mails a fresh token (it refuses
    only [Active] accounts), and [verifyEmail] with that token sets the
    account to [Active] without looking at the status it had. *)
Theorem inactive_user_is_reactivated env1 w e userInfo rest env2 :
  findUserByEmail (Some e) env1 w = (w, inr (userInfo :: rest)) ->
  status userInfo = Some Status.Inactive ->
  id userInfo <> None ->
  sendVerificationEmail_fault env1 = None ->
  JWT_SECRET env2 = JWT_SECRET env1 ->
  now env2 / 1000 < now env1 / 1000 + 86400 ->
  let token := email_token_for env1 e in
  exists w1 w2 userInfo' rest',
    resendVerificationEmail e env1 w
    = (w1, inr (successHandler "Verification email sent successfully"
                  DataEmpty))
    /\ In (VerificationEmail e token) (outbox w1)
    /\ verifyEmail token env2 w1
       = (w2, inr (successHandler "Email verified successfully" DataEmpty))
    /\ findUserByEmail (Some e) env2 w2 = (w2, inr (userInfo' :: rest'))
    /\ id userInfo' = id userInfo
    /\ status userInfo' = Some Status.Active.
Proof.
  intros found inactive present mail secret intime token.
  assert (F : filter (fun u => where_string (Some e) (Some (email u)))
                     (users w) = userInfo :: rest).
  { rewrite findUserByEmail_run in found. now injection found. }
  assert (S : same_id (id userInfo) userInfo = true).
  { apply same_id_true. destruct (id userInfo) as [s|]; [eauto|easy]. }
  set (w1 := {| users := update_rows (id userInfo)
                           (set_email_verification_token token) (users w);
                login_events := login_events w;
                outbox := outbox w ++ [VerificationEmail e token];
                contacts := contacts w |}).
  set (u1 := set_email_verification_token token userInfo).
  assert (F1 : filter (fun u => where_string (Some e) (Some (email u)))
                      (users w1)
               = u1 :: update_rows (id userInfo)
                         (set_email_verification_token token) rest).
  { cbn [w1 users]. rewrite filter_email_update_rows, F by reflexivity.
    cbn [update_rows map]. rewrite S. reflexivity. }
  destruct (proj2 (jwt_verify_jwt_sign (now env1)
                     {| claim_sub := None; claim_role := None;
                        claim_email := Some e;
                        claim_id := None; claim_iat := None;
                        claim_exp := None |}
                     (JWT_SECRET env1) 86400 (JWT_SECRET env2) env2 w1)
                  (conj secret intime)) as (c & V).
  fold (email_token_for env1 e) in V. fold token in V.
  assert (Ec : claim_email c = Some e).
  { apply jwt_verify_inr in V. destruct V as (_ & D & _).
    unfold token, email_token_for in D.
    rewrite jwt_decode_jwt_sign in D. injection D as <-. reflexivity. }
  exists w1, (set_users (update_rows (id u1) (set_status Status.Active)
                                     (users w1)) w1),
         (set_status Status.Active u1),
         (update_rows (id u1) (set_status Status.Active)
            (update_rows (id userInfo)
               (set_email_verification_token token) rest)).
  split.
  { rewrite resendVerificationEmail_run, F.
    unfold status_is. rewrite inactive. cbn [Status.eqb]. rewrite mail.
    reflexivity. }
  split.
  { cbn [w1 outbox]. apply in_or_app. right. left. reflexivity. }
  split.
  { apply (verifyEmail_ok _ _ _ c u1
             (update_rows (id userInfo)
                (set_email_verification_token token) rest) V).
    rewrite findUserByEmail_run, Ec, F1. reflexivity. }
  split.
  { rewrite findUserByEmail_run. cbn [users set_users].
    rewrite filter_email_update_rows, F1 by reflexivity.
    cbn [update_rows map].
    replace (same_id (id u1) u1) with true by (symmetry; exact S).
    reflexivity. }
  split; reflexivity.
Qed.

Lemma where_property_present key column :
  key <> None -> where_property key column = where_string key column.
Proof. destruct key; [reflexivity|contradiction]. Qed.

Lemma find_only {A} (p : A -> bool) (l : list A) m :
  (forall x, In x l -> p x = true -> x = m) ->
  (exists x, In x l /\ p x = true) ->
  find p l = Some m.
Proof.
  intros only (x & I & P). destruct (find p l) as [y|] eqn:F.
  - apply find_some in F. destruct F as [Iy Py]. f_equal. now apply only.
  - rewrite (find_none _ _ F x I) in P. discriminate.
Qed.

Lemma in_write_back us u0 u r :
  In u0 us -> id u0 <> None -> id u = id u0 ->
  In r (update_rows (id u0) (fun _ => u) us) -> id r = id u0 -> r = u.
Proof.
  intros I present E Ir Er. apply in_update_rows in Ir.
  destruct Ir as (r0 & _ & ->).
  destruct (same_id (id u0) r0) eqn:S; [reflexivity|].
  unfold same_id in S. rewrite Er in S.
  destruct (id u0) as [s|]; [|contradiction].
  cbn in S. rewrite String.eqb_refl in S. discriminate.
Qed.

Lemma write_back_has_row us u0 u :
  In u0 us -> id u0 <> None ->
  In u (update_rows (id u0) (fun _ => u) us).
Proof.
  intros I present. unfold update_rows. apply in_map_iff. exists u0.
  split; [|exact I].
  replace (same_id (id u0) u0) with true; [reflexivity|].
  symmetry. apply same_id_true. destruct (id u0) as [s|]; [eauto|easy].
Qed.

Lemma forgotPassword_users env w e user :
  userRepo_findOne_email e env w = (w, inr (Some user)) ->
  id user <> None ->
  users (fst (forgotPassword e env w))
  = update_rows (id user)
      (fun _ => set_reset (Some (reset_token_for env user))
                          (Some (now env + 60 * 60 * 1000)) user)
      (users w)
  /\ In user (users w).
Proof.
  intros found present.
  assert (F : find (fun u => where_string (Some e) (Some (email u)))
                   (users w) = Some user).
  { unfold userRepo_findOne_email in found. revert found. step_M.
    intros found. now injection found. }
  pose proof (find_email_some _ _ _ F) as [I _]. split; [|exact I].
  rewrite forgotPassword_run, F. cbv zeta.
  rewrite (userRepo_save_existing env w user) by auto.
  destruct (sendPasswordResetEmail_fault env); reflexivity.
Qed.

(** X10.  Round trip of the reset token.  [forgotPassword] stores the token
    and its expiry on the user before it hands the mail over, so whether
    or not the mail goes out, presenting the token it signed to
    [resetPassword] under the same secret, before the clock in whole
    seconds is an hour past the second of signing, succeeds: the user's
    password becomes the hash of the new one and the stored token and
    expiry are cleared.  The expiry stored beside the token never decides:
    it has not passed whenever the token's own one has not. *)
Theorem forgotPassword_resetPassword_round_trip env w e user env' pw :
  userRepo_findOne_email e env w = (w, inr (Some user)) ->
  id user <> None ->
  JWT_SECRET env' = JWT_SECRET env ->
  now env' / 1000 < now env / 1000 + 3600 ->
  let w1 := fst (forgotPassword e env w) in
  let token := reset_token_for env user in
  (match sendPasswordResetEmail_fault env with
   | None => In (PasswordResetEmail e token) (outbox w1)
   | Some msg => snd (forgotPassword e env w) = inl (Error msg)
   end)
  /\ exists w2,
       resetPassword token pw env' w1
       = (w2, inr (successHandler "Password reset successful." DataEmpty))
       /\ (exists r, In r (users w2) /\ id r = id user)
       /\ forall r, In r (users w2) -> id r = id user ->
            password r = Some (hashPassword env' pw)
            /\ reset_pass_token r = None
            /\ reset_pass_token_expiry r = None
            /\ email r = email user.
Proof.
  intros found present secret intime w1 token.
  destruct (forgotPassword_users env w e user found present) as [U I].
  fold w1 in U. fold token in U.
  set (marked := set_reset (Some token) (Some (now env + 60 * 60 * 1000)) user)
    in *.
  split.
  { assert (F : find (fun u => where_string (Some e) (Some (email u)))
                     (users w) = Some user).
    { unfold userRepo_findOne_email in found. revert found. step_M.
      intros found. now injection found. }
    unfold w1. rewrite forgotPassword_run, F. cbv zeta.
    destruct (sendPasswordResetEmail_fault env); [reflexivity|].
    cbn [fst outbox]. apply in_or_app. right. left. reflexivity. }
  destruct (proj2 (jwt_verify_jwt_sign (now env)
                     {| claim_sub := None; claim_role := None;
                        claim_email := None;
                        claim_id := id user; claim_iat := None;
                        claim_exp := None |}
                     (JWT_SECRET env) 3600 (JWT_SECRET env') env' w1)
                  (conj secret intime)) as (c & V).
  fold (reset_token_for env user) in V. fold token in V.
  assert (Ec : claim_id c = id user).
  { apply jwt_verify_inr in V. destruct V as (_ & D & _).
    unfold token, reset_token_for in D.
    rewrite jwt_decode_jwt_sign in D. injection D as <-. reflexivity. }
  assert (Sm : where_property (id user) (id marked) = true).
  { rewrite where_property_present by exact present.
    apply where_string_true. cbn. destruct (id user) as [s|]; [eauto|easy]. }
  assert (Fm : find (reset_where token (claim_id c)) (users w1) = Some marked).
  { rewrite U, Ec. apply find_only.
    - intros x Ix Px. apply reset_where_true in Px. destruct Px as [_ Wx].
      rewrite where_property_present in Wx by exact present.
      apply where_string_true in Wx. destruct Wx as (s & A & B).
      apply (in_write_back (users w) user marked x); auto. congruence.
    - exists marked. split.
      + now apply write_back_has_row.
      + apply reset_where_true. split; [reflexivity|exact Sm]. }
  assert (X : expiry_passed (now env') (reset_pass_token_expiry marked)
              = false).
  { cbn. apply Z.ltb_ge.
    Z.to_euclidean_division_equations. lia. }
  assert (Im : In marked (update_rows (id user) (fun _ => marked) (users w)))
    by (now apply write_back_has_row).
  assert (Pm : id marked <> None) by exact present.
  assert (Sv : fst (userRepo_save (after_reset env' pw marked) env' w1)
               = set_users (update_rows (id marked)
                              (fun _ => after_reset env' pw marked)
                              (users w1)) w1).
  { apply userRepo_save_existing; [rewrite U; exact Im|exact Pm|reflexivity]. }
  eexists. split.
  { rewrite resetPassword_run, V, Fm, X, Sv. reflexivity. }
  cbn [users set_users]. rewrite U.
  split.
  - exists (after_reset env' pw marked). split; [|reflexivity].
    now apply write_back_has_row.
  - intros r Ir Er.
    rewrite (in_write_back _ marked (after_reset env' pw marked) r Im Pm
               eq_refl Ir Er).
    repeat split.
Qed.

(** ** Refresh *)

(** X11.  [refreshTokens] takes either token of a pair.  While the user
    the pair was signed for exists, each of the two tokens [getTokens]
    returned, the access token as well as the refresh token, is accepted
    exactly until the clock passes that token's own [exp], by a process
    with any secrets; the answer is a new pair for the stored user, so
    with the role the user has now. *)
Theorem refreshTokens_accepts_either_token env0 w0 i r tokens env w userInfo :
  getTokens (Some i) r env0 w0 = (w0, inr tokens) ->
  userRepo_findOneBy_id (Some i) env w = (w, inr (Some userInfo)) ->
  (refreshTokens (Some (refreshToken tokens)) env w
   = (w, if now env <=? (now env0 / 1000
                         + REFRESH_TOKEN_EXPIRATION_TIME env0) * 1000
         then inr (session_response env userInfo)
         else inl AccessDenied))
  /\ (refreshTokens (Some (accessToken tokens)) env w
      = (w, if now env <=? (now env0 / 1000
                            + ACCESS_TOKEN_EXPIRATION_TIME env0) * 1000
            then inr (session_response env userInfo)
            else inl AccessDenied))
  /\ id userInfo = Some i.
Proof.
  intros G found.
  assert (F : find (fun u => where_property (Some i) (id u)) (users w)
              = Some userInfo).
  { unfold userRepo_findOneBy_id in found. revert found. step_M.
    intros found. now injection found. }
  injection G as <-.
  assert (both : forall secret ttl,
             refreshTokens
               (Some (jwt_sign (now env0)
                        {| claim_sub := Some i; claim_role := Some r;
                           claim_email := None; claim_id := None;
                           claim_iat := None; claim_exp := None |}
                        secret ttl)) env w
             = (w, if now env <=? (now env0 / 1000 + ttl) * 1000
                   then inr (session_response env userInfo)
                   else inl AccessDenied)).
  { intros secret ttl. rewrite refreshTokens_run, jwt_decode_jwt_sign.
    unfold refresh_expired. cbn [claim_exp claim_sub]. rewrite F.
    rewrite Z.leb_antisym. destruct (_ <? _); reflexivity. }
  split; [apply both|]. split; [apply both|].
  apply find_some in F. destruct F as [_ W]. cbn [where_property] in W.
  apply where_string_true in W. destruct W as (s & A & B). congruence.
Qed.

(** ** Federated login *)

(** X12.  [googleLogin] gets or creates.  For an email nobody has it
    appends one user, without a password, with role [User] and the
    generated id, and opens a session for it; every later federated login
    with the same email finds that user, adds no row, and opens a session
    for the same id. *)
Theorem googleLogin_creates_once env w dto req :
  findUserByEmail (Some (google_email dto)) env w = (w, inr []) ->
  fresh_id env w ->
  let created := set_last_login (now env)
                   (with_generated (uuid env) (googleLogin_entity dto)) in
  let w1 := fst (googleLogin dto req env w) in
  users w1 = (users w ++ [created])%list
  /\ snd (googleLogin dto req env w) = inr (session_response env created)
  /\ password created = None
  /\ forall env' req',
       snd (googleLogin dto req' env' w1)
       = inr (session_response env' (set_last_login (now env') created))
       /\ length (users (fst (googleLogin dto req' env' w1)))
          = length (users w1)
       /\ id (set_last_login (now env') created) = Some (uuid env).
Proof.
  intros unknown fresh created w1.
  assert (F : filter (fun u => where_string (Some (google_email dto))
                                            (Some (email u))) (users w) = []).
  { rewrite findUserByEmail_run in unknown. now injection unknown. }
  assert (U : users w1 = (users w ++ [created])%list).
  { unfold w1. rewrite (googleLogin_unknown env w dto req unknown).
    cbn [fst users add_login_event set_users].
    rewrite update_rows_app, update_rows_none.
    - cbn. rewrite String.eqb_refl. reflexivity.
    - intros r0 I. destruct (same_id (Some (uuid env)) r0) eqn:S;
        [|reflexivity].
      apply same_id_true in S. destruct S as (s & A & B).
      destruct fresh. rewrite A, <- B. now apply in_map. }
  split; [exact U|]. split.
  { rewrite (googleLogin_unknown env w dto req unknown). reflexivity. }
  split; [reflexivity|].
  intros env' req'.
  assert (F1 : findUserByEmail (Some (google_email dto)) env' w1
               = (w1, inr [created])).
  { rewrite findUserByEmail_run, U.
    rewrite (filter_email_last _ _ _ F) by reflexivity. reflexivity. }
  rewrite (googleLogin_found env' w1 dto req' created [] F1).
  cbn [fst snd users add_login_event].
  split; [reflexivity|]. split; [|reflexivity].
  rewrite (userRepo_save_existing env' w1 created).
  - cbn [users set_users]. unfold update_rows. apply length_map.
  - rewrite U. apply in_or_app. right. left. reflexivity.
  - discriminate.
  - reflexivity.
Qed.

(** ** Failures *)


(** ** The earlier AuthService *)

Lemma Legacy_login_found env w loginInfo userInfo rest :
  findUserByEmail (Some (login_email loginInfo)) env w
  = (w, inr (userInfo :: rest)) ->
  Legacy.login loginInfo env w =
  (w, if status_is Status.Inactive userInfo
      then inl (BadRequestException "Account Restricted!")
      else match password userInfo with
           | None => inl (Error "data and hash arguments required")
           | Some hash =>
               if bcrypt_native_compare env (login_password loginInfo) hash
               then inr (session_response env userInfo)
               else inl (BadRequestException "Invalid password")
           end).
Proof.
  intros found. unfold Legacy.login.
  rewrite (bind_inr ask _ env w w env) by reflexivity.
  rewrite (bind_inr _ _ _ _ _ _ found).
  destruct (status_is Status.Inactive userInfo); [reflexivity|].
  unfold Legacy.bcrypt_compare_native.
  destruct (password userInfo) as [hash|]; [|reflexivity].
  step_M. destruct (bcrypt_native_compare env _ _); reflexivity.
Qed.

(** X14.  The earlier [login] beside the later one, for an email whose
    user is not [Unverified].  The earlier one writes nothing at all: no
    login event, no [last_login].  For an [Inactive] user, and for a user
    with a stored hash on which the two bcrypt libraries answer alike, the
    two return the same verdict: the same exception, or a session with the
    same two tokens for the same user up to [last_login].  For an active
    user without a stored hash each throws the rejection of its own
    library, and the two differ. *)
Theorem Legacy_login_same_verdict env w loginInfo req userInfo rest :
  findUserByEmail (Some (login_email loginInfo)) env w
  = (w, inr (userInfo :: rest)) ->
  status_is Status.Unverified userInfo = false ->
  fst (Legacy.login loginInfo env w) = w
  /\ (status_is Status.Inactive userInfo = true ->
      same_verdict (snd (login loginInfo req env w))
                   (snd (Legacy.login loginInfo env w)))
  /\ (forall hash,
        password userInfo = Some hash ->
        bcrypt_native_compare env (login_password loginInfo) hash
        = bcrypt_compare env (login_password loginInfo) hash ->
        same_verdict (snd (login loginInfo req env w))
                     (snd (Legacy.login loginInfo env w)))
  /\ (status_is Status.Inactive userInfo = false ->
      password userInfo = None ->
      snd (login loginInfo req env w)
      = inl (Error "Illegal arguments: string, object")
      /\ snd (Legacy.login loginInfo env w)
         = inl (Error "data and hash arguments required")).
Proof.
  intros found verified.
  rewrite (Legacy_login_found env w loginInfo userInfo rest found).
  rewrite (login_found env w loginInfo req userInfo rest found), verified.
  split; [reflexivity|]. split; [|split].
  - intros ->. reflexivity.
  - intros hash -> agree. rewrite agree.
    destruct (status_is Status.Inactive userInfo); [reflexivity|].
    destruct (bcrypt_compare env _ _); [|reflexivity].
    cbn. split; [reflexivity|]. do 4 eexists. repeat split.
  - intros -> ->. split; reflexivity.
Qed.

(** X15.  The earlier [signUp] is not atomic.  For an email nobody has it
    saves the user and then logs in with the same password: when the
    hasher accepts the password against the hash it has just made, the
    call returns a session for the new user at once; when it does not, the
    call throws "Invalid password" although the user has been saved. *)
Theorem Legacy_signUp_saves_then_logs_in env w dto r :
  findUserByEmail (Some (Legacy.signup_email dto)) env w = (w, inr []) ->
  let created := with_generated (uuid env) (Legacy.signUp_entity env dto r) in
  Legacy.signUp dto r env w
  = (set_users (users w ++ [created]) w,
     if bcrypt_native_compare env (Legacy.signup_password dto)
                              (hashPassword env (Legacy.signup_password dto))
     then inr (session_response env created)
     else inl (BadRequestException "Invalid password")).
Proof.
  intros fresh created.
  assert (F : filter (fun u => where_string (Some (Legacy.signup_email dto))
                                            (Some (email u))) (users w) = []).
  { rewrite findUserByEmail_run in fresh. now injection fresh. }
  unfold Legacy.signUp.
  rewrite (bind_inr ask _ env w w env) by reflexivity.
  rewrite (bind_inr _ _ _ _ _ _ fresh). cbn [length Nat.eqb negb].
  fold (Legacy.signUp_entity env dto r).
  assert (S : userRepo_save (Legacy.signUp_entity env dto r) env w
              = (set_users (users w ++ [created]) w, inr created)).
  { unfold userRepo_save. step_M. cbn [id Legacy.signUp_entity].
    rewrite existsb_same_id_None. reflexivity. }
  rewrite (bind_inr _ _ _ _ _ _ S).
  rewrite (Legacy_login_found env _ _ created []).
  - reflexivity.
  - rewrite findUserByEmail_run. cbn [users set_users login_email].
    rewrite (filter_email_last _ _ _ F) by reflexivity. reflexivity.
Qed.

(** ** VideoService *)

Lemma id_is_true key v :
  VideoService.id_is key v = true <-> VideoService.id v = Some key.
Proof.
  unfold VideoService.id_is. rewrite where_string_true. split.
  - intros (s & A & B). congruence.
  - eauto.
Qed.

Lemma save_one_same videos v :
  NoDup (map VideoService.id videos) -> In v videos ->
  VideoService.id v <> None ->
  VideoService.save_one videos v = videos.
Proof.
  intros pk I present. unfold VideoService.save_one.
  replace (existsb (fun r => where_string (VideoService.id v)
                                          (VideoService.id r)) videos)
    with true.
  - rewrite <- (map_id videos) at 2. apply map_ext_in. intros r Ir.
    destruct (where_string _ _) eqn:W; [|reflexivity].
    apply where_string_true in W. destruct W as (s & A & B).
    apply (NoDup_map_inj VideoService.id videos); auto. congruence.
  - symmetry. apply existsb_exists. exists v. split; [exact I|].
    apply where_string_true.
    destruct (VideoService.id v) as [s|]; [eauto|contradiction].
Qed.

(** X16.  [updateVideo] never updates.  [findBy] returns an array, which
    is never falsy, so the 404 branch is dead, also for an id no video
    has; [Object.assign] puts the attributes on the array, not on the
    videos in it; and saving the videos as they were read leaves a table
    with a primary key as it was.  The call always reports success. *)
Theorem updateVideo_never_updates key attributes videos :
  NoDup (map VideoService.id videos) ->
  VideoService.updateVideo key attributes videos
  = (videos,
     VideoService.successHandler "Video updated successfully"
       (VideoService.DataArray
          {| VideoService.items := VideoService.findVideoById key videos;
             VideoService.assigned := Some attributes |})).
Proof.
  intros pk. unfold VideoService.updateVideo. cbn [VideoService.falsy].
  f_equal. unfold VideoService.save_all, VideoService.Object_assign.
  cbn [VideoService.items VideoService.findBy_id].
  assert (K : forall found,
             (forall v, In v found ->
                In v videos /\ VideoService.id v <> None) ->
             fold_left VideoService.save_one found videos = videos).
  { induction found as [|v found IH]; [reflexivity|].
    intros H. cbn [fold_left].
    destruct (H v (or_introl eq_refl)) as [I present].
    rewrite save_one_same by assumption.
    apply IH. intros v' I'. apply H. now right. }
  apply K. intros v I. apply filter_In in I. destruct I as [I W].
  split; [exact I|]. apply id_is_true in W. congruence.
Qed.

Lemma filter_none_keeps_all {A} (p : A -> bool) (l : list A) :
  filter p l = [] -> filter (fun x => negb (p x)) l = l.
Proof.
  induction l as [|a l IH]; cbn; [reflexivity|].
  destruct (p a); [discriminate|]. cbn. intros F. f_equal. auto.
Qed.

(** What [deleteVideo] does. *)
Lemma deleteVideo_run key videos :
  VideoService.deleteVideo key videos
  = (filter (fun r => negb (VideoService.id_is key r)) videos,
     VideoService.successHandler "Video deleted successfully"
       VideoService.DataNull).
Proof.
  unfold VideoService.deleteVideo. cbn [VideoService.falsy].
  f_equal. unfold VideoService.remove_all.
  cbn [VideoService.items VideoService.findBy_id].
  apply filter_ext_in. intros r I. f_equal.
  destruct (VideoService.id_is key r) eqn:W.
  - apply existsb_exists. exists r. split.
    + apply filter_In. auto.
    + apply id_is_true in W. rewrite W. cbn. apply String.eqb_refl.
  - destruct (existsb _ _) eqn:X; [|reflexivity].
    apply existsb_exists in X. destruct X as (v & Iv & Wv).
    apply filter_In in Iv. destruct Iv as [_ Kv].
    apply id_is_true in Kv. rewrite Kv in Wv.
    unfold VideoService.id_is in W. congruence.
Qed.

(** X17.  [deleteVideo] deletes exactly the videos with the given id and
    always reports success: the 404 branch is dead, so for an id no video
    has the table is left as it is and the answer is still "Video deleted
    successfully".  Afterwards no video has that id. *)
Theorem deleteVideo_removes_the_id key videos :
  VideoService.deleteVideo key videos
  = (filter (fun r => negb (VideoService.id_is key r)) videos,
     VideoService.successHandler "Video deleted successfully"
       VideoService.DataNull)
  /\ VideoService.findVideoById key (fst (VideoService.deleteVideo key videos))
     = []
  /\ (VideoService.findVideoById key videos = [] ->
      fst (VideoService.deleteVideo key videos) = videos).
Proof.
  pose proof (deleteVideo_run key videos) as E.
  split; [exact E|]. rewrite E. cbn [fst]. split.
  - unfold VideoService.findVideoById. cbn [VideoService.items
      VideoService.findBy_id].
    destruct (filter (VideoService.id_is key) _) as [|v rest] eqn:F;
      [reflexivity|].
    assert (I : In v (filter (VideoService.id_is key)
                        (filter (fun r => negb (VideoService.id_is key r))
                                videos)))
      by (rewrite F; now left).
    apply filter_In in I. destruct I as [I W].
    apply filter_In in I. destruct I as [_ N].
    rewrite W in N. discriminate.
  - unfold VideoService.findVideoById. cbn [VideoService.items
      VideoService.findBy_id]. apply filter_none_keeps_all.
Qed.

(** X18.  Round trip of [createVideo].  When the thumbnail upload fails
    the fault is thrown and nothing is stored.  When it succeeds and the
    generated id is new, the stored video carries the attributes and the
    uploaded file's URL as [video_url]; looking the id up returns exactly
    that video, the lookup by its genre contains it, and deleting the id
    again gives back the table as it was. *)
Theorem createVideo_round_trip upload new_id attributes videos :
  (forall r, In r videos -> VideoService.id r <> Some new_id) ->
  match upload with
  | inl fault =>
      VideoService.createVideo upload new_id attributes videos
      = (videos, inl (Error fault))
  | inr secure_url =>
      exists v,
        VideoService.createVideo upload new_id attributes videos
        = ((videos ++ [v])%list,
           inr (VideoService.successHandler "Video created successfully"
                  (VideoService.DataVideo v)))
        /\ VideoService.video_url v = secure_url
        /\ VideoService.title v = VideoService.dto_title attributes
        /\ VideoService.findVideoById new_id (videos ++ [v]) = [v]
        /\ In v (VideoService.findVideosByGenre
                   (VideoService.dto_genre attributes) (videos ++ [v]))
        /\ fst (VideoService.deleteVideo new_id (videos ++ [v])) = videos
  end.
Proof.
  intros fresh. destruct upload as [fault|secure_url]; [reflexivity|].
  eexists. split; [reflexivity|]. split; [reflexivity|].
  split; [reflexivity|].
  assert (N : filter (VideoService.id_is new_id) videos = []).
  { destruct (filter _ _) as [|r rest] eqn:F; [reflexivity|].
    assert (I : In r (filter (VideoService.id_is new_id) videos))
      by (rewrite F; now left).
    apply filter_In in I. destruct I as [I W].
    apply id_is_true in W. destruct (fresh r I W). }
  split.
  { unfold VideoService.findVideoById.
    cbn [VideoService.items VideoService.findBy_id].
    rewrite filter_app, N. cbn. rewrite String.eqb_refl. reflexivity. }
  split.
  { unfold VideoService.findVideosByGenre. apply filter_In. split.
    - apply in_or_app. right. now left.
    - cbn. apply String.eqb_refl. }
  rewrite deleteVideo_run. cbn [fst].
  rewrite filter_app, (filter_none_keeps_all _ _ N).
  cbn. rewrite String.eqb_refl. cbn. apply app_nil_r.
Qed.

(** ** The further properties at work *)

Lemma store_ok_alice : store_ok (world_of [alice_active]).
Proof.
  repeat split; cbn.
  - constructor; [intros []|constructor].
  - intros [H|[]]. discriminate.
  - constructor; [intros []|constructor].
Qed.

Lemma fresh_id_alice t : fresh_id (env_at t "u-2") (world_of [alice_active]).
Proof. intros [H|[]]. discriminate. Qed.

Lemma run_keeps_store_ok_witness :
  store_ok (fst (run (CallGoogleLogin {| google_email := "b@x.com" |} None)
                     (env_at t2 "u-2") (world_of [alice_active]))).
Proof.
  apply run_keeps_store_ok; [exact store_ok_alice|exact (fresh_id_alice t2)].
Defined.

Lemma run_never_deletes_or_renames_witness :
  exists new,
    map id (users (fst (run (CallResetPassword alice_reset_token "N3w")
                            (env_at t2 "u-2") (world_of [alice_active]))))
    = (map id (users (world_of [alice_active])) ++ map id new)%list
    /\ map email (users (fst (run (CallResetPassword alice_reset_token "N3w")
                                  (env_at t2 "u-2")
                                  (world_of [alice_active]))))
       = (map email (users (world_of [alice_active])) ++ map email new)%list
    /\ (length new <= 1)%nat
    /\ (forall u, In u new ->
          id u = Some (uuid (env_at t2 "u-2"))
          /\ forall r, In r (users (world_of [alice_active])) ->
               email r <> email u).
Proof.
  apply run_never_deletes_or_renames;
    [exact store_ok_alice|exact (fresh_id_alice t2)].
Defined.

Lemma login_changes_only_last_login_witness :
  map forget_last_login
      (users (fst (login {| login_email := "a@x.com";
                            login_password := "P@ssw0rd" |} None
                         (env_at t2 "u-2") (world_of [alice_active]))))
  = map forget_last_login (users (world_of [alice_active])).
Proof.
  exact (proj1 (login_changes_only_last_login
                  (env_at t2 "u-2") (world_of [alice_active])
                  {| login_email := "a@x.com"; login_password := "P@ssw0rd" |}
                  None store_ok_alice)).
Defined.

Lemma signUp_twice_is_rejected_witness :
  signUp alice_dto Role.Admin (env_at t8d "u-9")
         (fst (signUp alice_dto Role.User (env_at t0 "u-1") (world_of [])))
  = (fst (signUp alice_dto Role.User (env_at t0 "u-1") (world_of [])),
     inl (BadRequestException "User with this email already exists")).
Proof.
  apply (signUp_twice_is_rejected
           (env_at t0 "u-1") (world_of []) alice_dto Role.User _
           (successHandler "User created successfully"
              (DataUser (delete_password alice))));
    reflexivity.
Defined.

Lemma email_token_round_trip_witness :
  (exists c, verifyEmailToken alice_token0 (env_at t1 "u-2")
                              (world_of [alice])
             = (world_of [alice], inr c))
  <-> JWT_SECRET (env_at t1 "u-2") = JWT_SECRET (env_at t0 "u-1")
      /\ now (env_at t1 "u-2") / 1000 < now (env_at t0 "u-1") / 1000 + 86400.
Proof.
  exact (proj1 (email_token_round_trip
                  "a@x.com" (env_at t0 "u-1") (world_of []) alice_token0
                  (env_at t1 "u-2") (world_of [alice]) eq_refl)).
Defined.

Lemma signUp_verifyEmail_login_witness :
  In (VerificationEmail "a@x.com" alice_token0)
     (outbox (fst (signUp alice_dto Role.User (env_at t0 "u-1")
                          (world_of [])))).
Proof.
  exact (proj1 (signUp_verifyEmail_login
                  (env_at t0 "u-1") (world_of []) alice_dto Role.User
                  (fst (signUp alice_dto Role.User (env_at t0 "u-1")
                               (world_of [])))
                  (successHandler "User created successfully"
                     (DataUser (delete_password alice)))
                  (env_at t1 "u-2") eq_refl eq_refl eq_refl)).
Defined.

Lemma verifyEmail_token_is_reusable_witness :
  verifyEmail alice_token0 (env_at t2 "u-3") (world_of [alice_active])
  = (world_of [alice_active],
     inr (successHandler "Email verified successfully" DataEmpty)).
Proof.
  apply (verifyEmail_token_is_reusable
           (env_at t1 "u-2") (world_of [alice]) alice_token0
           (world_of [alice_active])
           (successHandler "Email verified successfully" DataEmpty)
           (env_at t2 "u-3")
           (match alice_token0 with
            | Jws c _ => c
            | Raw _ => email_claims ""
            end));
    reflexivity.
Defined.

Lemma inactive_user_is_reactivated_witness :
  exists w1 w2 userInfo' rest',
    resendVerificationEmail "a@x.com" (env_at t1 "u-2")
                            (world_of [alice_inactive])
    = (w1, inr (successHandler "Verification email sent successfully"
                  DataEmpty))
    /\ In (VerificationEmail "a@x.com" alice_token1) (outbox w1)
    /\ verifyEmail alice_token1 (env_at t2 "u-3") w1
       = (w2, inr (successHandler "Email verified successfully" DataEmpty))
    /\ findUserByEmail (Some "a@x.com") (env_at t2 "u-3") w2
       = (w2, inr (userInfo' :: rest'))
    /\ id userInfo' = id alice_inactive
    /\ status userInfo' = Some Status.Active.
Proof.
  apply (inactive_user_is_reactivated
           (env_at t1 "u-2") (world_of [alice_inactive]) "a@x.com"
           alice_inactive [] (env_at t2 "u-3")); try reflexivity.
  discriminate.
Defined.

Lemma forgotPassword_resetPassword_round_trip_witness :
  exists w2,
    resetPassword alice_reset_token "N3w-P@ss" (env_at t2 "u-3")
                  (fst (forgotPassword "a@x.com" (env_at t1 "u-2")
                                       (world_of [alice_active])))
    = (w2, inr (successHandler "Password reset successful." DataEmpty)).
Proof.
  destruct (forgotPassword_resetPassword_round_trip
              (env_at t1 "u-2") (world_of [alice_active]) "a@x.com"
              alice_active (env_at t2 "u-3") "N3w-P@ss"
              eq_refl ltac:(discriminate) eq_refl eq_refl)
    as (_ & w2 & E & _).
  exists w2. exact E.
Defined.

Lemma refreshTokens_accepts_either_token_witness :
  refreshTokens
    (Some (jwt_sign t0 (session_claims "u-1" Role.User) "access-secret" 900))
    (env_at t1 "u-2") (world_of [alice_active])
  = (world_of [alice_active],
     inr (session_response (env_at t1 "u-2") alice_active)).
Proof.
  exact (proj1 (proj2 (refreshTokens_accepts_either_token
                         (env_at t0 "u-1") (world_of []) "u-1" Role.User
                         _ (env_at t1 "u-2") (world_of [alice_active])
                         alice_active eq_refl eq_refl))).
Defined.

Lemma googleLogin_creates_once_witness :
  length (users (fst (googleLogin {| google_email := "b@x.com" |} None
                        (env_at t2 "u-3")
                        (fst (googleLogin {| google_email := "b@x.com" |} None
                                (env_at t1 "u-2")
                                (world_of [alice_active]))))))
  = length (users (fst (googleLogin {| google_email := "b@x.com" |} None
                          (env_at t1 "u-2") (world_of [alice_active])))).
Proof.
  exact (proj1 (proj2 (proj2 (proj2 (proj2
           (googleLogin_creates_once
              (env_at t1 "u-2") (world_of [alice_active])
              {| google_email := "b@x.com" |} None
              eq_refl (fresh_id_alice t1))))
           (env_at t2 "u-3") None))).
Defined.


Lemma Legacy_login_same_verdict_witness :
  same_verdict
    (snd (login {| login_email := "a@x.com"; login_password := "P@ssw0rd" |}
                None (env_at t2 "u-2") (world_of [alice_active])))
    (snd (Legacy.login {| login_email := "a@x.com";
                          login_password := "P@ssw0rd" |}
                       (env_at t2 "u-2") (world_of [alice_active]))).
Proof.
  exact (proj1 (proj2 (proj2 (Legacy_login_same_verdict
                  (env_at t2 "u-2") (world_of [alice_active])
                  {| login_email := "a@x.com"; login_password := "P@ssw0rd" |}
                  None alice_active [] eq_refl eq_refl)))
               "bcrypt:P@ssw0rd" eq_refl eq_refl).
Defined.

Lemma Legacy_signUp_saves_then_logs_in_witness :
  exists created,
    Legacy.signUp {| Legacy.signup_email := "b@x.com";
                     Legacy.signup_password := "s3cret" |} Role.User
                  (env_at t2 "u-2") (world_of [alice_active])
    = (world_of [alice_active; created],
       inr (session_response (env_at t2 "u-2") created)).
Proof.
  eexists.
  exact (Legacy_signUp_saves_then_logs_in
           (env_at t2 "u-2") (world_of [alice_active])
           {| Legacy.signup_email := "b@x.com";
              Legacy.signup_password := "s3cret" |} Role.User eq_refl).
Defined.

Lemma updateVideo_never_updates_witness :
  fst (VideoService.updateVideo "v-1" (Catalogue.retitle "Streams")
                                Catalogue.shelf)
  = Catalogue.shelf
  /\ fst (VideoService.updateVideo "v-404" (Catalogue.retitle "Streams")
                                   Catalogue.shelf)
     = Catalogue.shelf.
Proof.
  assert (pk : NoDup (map VideoService.id Catalogue.shelf)).
  { cbn. constructor; [intros [H|[]]; discriminate|].
    constructor; [intros []|constructor]. }
  split.
  - now rewrite (updateVideo_never_updates "v-1" _ _ pk).
  - now rewrite (updateVideo_never_updates "v-404" _ _ pk).
Defined.

Lemma deleteVideo_removes_the_id_witness :
  VideoService.deleteVideo "v-404" Catalogue.shelf
  = (Catalogue.shelf,
     VideoService.successHandler "Video deleted successfully"
       VideoService.DataNull).
Proof.
  rewrite (proj1 (deleteVideo_removes_the_id "v-404" Catalogue.shelf)).
  reflexivity.
Defined.

Lemma createVideo_round_trip_witness :
  exists v,
    VideoService.createVideo (inr "https://res.cloudinary.example/t.png")
                             "v-3" Catalogue.dunes Catalogue.shelf
    = ((Catalogue.shelf ++ [v])%list,
       inr (VideoService.successHandler "Video created successfully"
              (VideoService.DataVideo v)))
    /\ VideoService.video_url v = "https://res.cloudinary.example/t.png"
    /\ VideoService.title v = VideoService.dto_title Catalogue.dunes
    /\ VideoService.findVideoById "v-3" (Catalogue.shelf ++ [v]) = [v]
    /\ In v (VideoService.findVideosByGenre
               (VideoService.dto_genre Catalogue.dunes)
               (Catalogue.shelf ++ [v]))
    /\ fst (VideoService.deleteVideo "v-3" (Catalogue.shelf ++ [v]))
       = Catalogue.shelf.
Proof.
  apply (createVideo_round_trip (inr "https://res.cloudinary.example/t.png")
           "v-3" Catalogue.dunes Catalogue.shelf).
  intros r [<-|[<-|[]]]; discriminate.
Defined.
